(** * organize_media.py: the inference-and-placement pipeline

    A shallow embedding of [organizer/organize_media.py] and the properties of
    its resolver, destination namer, per-file pipeline, sweep and trigger
    surface.

    Conventions of the embedding:
    - Python values that the code handles dynamically ([info] from guessit,
      the decoded TMDB response) are values of [pyval]; a Python [dict] with
      string keys is a [gmap string pyval].  JSON numbers are taken to be
      integers.
    - Python [str] is Rocq's [string]: a sequence of 8-bit characters.
      [str.upper] and [str.isdigit] are the ASCII ones.
    - Every call that leaves the interpreter (file system, HTTP, guessit,
      logging, the reply to an HTTP client) appends an [Event] to a trace, and
      what it returns is given by an oracle of the [World] that sees the
      whole trace so far.  Theorems hold for every world.
    - Paths are those of [pathlib] on POSIX; [suffix] is the one of
      Python up to 3.13.
    - Replying to an HTTP client ([send_response], [end_headers],
      [wfile.write]) and binding the server socket are taken not to
      raise. *)

From Stdlib Require Import Strings.Ascii Strings.String.
From stdpp Require Import gmap strings list fin_maps pretty.

Set Warnings "-register-all,-clear-no-such-hyp".

Open Scope string_scope.
Open Scope list_scope.
Open Scope Z_scope.

(** ** Python strings *)

Module PyStr.

Definition upper_ascii (c : ascii) : ascii :=
  let n := Ascii.N_of_ascii c in
  if ((97 <=? n) && (n <=? 122))%N then Ascii.ascii_of_N (n - 32) else c.

(** [s.upper()] *)
Fixpoint upper (s : string) : string :=
  match s with
  | "" => ""
  | String c s' => String (upper_ascii c) (upper s')
  end.

Definition is_digit (c : ascii) : bool :=
  let n := Ascii.N_of_ascii c in ((48 <=? n) && (n <=? 57))%N.

Fixpoint all_digits (s : string) : bool :=
  match s with
  | "" => true
  | String c s' => is_digit c && all_digits s'
  end.

(** [s.isdigit()]: false on the empty string. *)
Definition isdigit (s : string) : bool :=
  match s with
  | "" => false
  | _ => all_digits s
  end.

(** [s[:n]] *)
Fixpoint take (n : nat) (s : string) : string :=
  match n, s with
  | S n', String c s' => String c (take n' s')
  | _, _ => ""
  end.

Definition digit_val (c : ascii) : Z := Z.of_N (Ascii.N_of_ascii c) - 48.

Fixpoint int_go (acc : Z) (s : string) : Z :=
  match s with
  | "" => acc
  | String c s' => int_go (10 * acc + digit_val c) s'
  end.

(** [int(s)] for a string of digits. *)
Definition int (s : string) : Z := int_go 0 s.

(** [sep.join(l)] *)
Fixpoint join (sep : string) (l : list string) : string :=
  match l with
  | [] => ""
  | [x] => x
  | x :: l' => x +:+ sep +:+ join sep l'
  end.

(** [s.split("/")] *)
Fixpoint split_slash (s : string) : list string :=
  match s with
  | "" => [""]
  | String c s' =>
      if Ascii.eqb c "/" then "" :: split_slash s'
      else match split_slash s' with
           | x :: xs => String c x :: xs
           | [] => [String c ""]
           end
  end.

(** ["/" not in s] *)
Fixpoint no_slash (s : string) : bool :=
  match s with
  | "" => true
  | String c s' => negb (Ascii.eqb c "/") && no_slash s'
  end.

(** [s.rfind(".")], as [None] for Python's [-1]. *)
Fixpoint rfind_dot (s : string) : option nat :=
  match s with
  | "" => None
  | String c s' =>
      match rfind_dot s' with
      | Some i => Some (S i)
      | None => if Ascii.eqb c "." then Some 0%nat else None
      end
  end.

(** [s[i:]] *)
Fixpoint drop (n : nat) (s : string) : string :=
  match n, s with
  | S n', String _ s' => drop n' s'
  | _, _ => s
  end.

(** [format(z, "02d")]: the decimal numeral, zero-filled to width 2.  The
    sign counts in the width, so a negative number is never filled. *)
Definition format_02d (z : Z) : string :=
  let s := pretty z in
  if (String.length s <? 2)%nat then "0" +:+ s else s.

End PyStr.

(** ** Python values *)

Inductive pyval : Type :=
  | VNone
  | VBool (b : bool)
  | VInt (z : Z)
  | VStr (s : string)
  | VList (l : list pyval)
  | VDict (d : gmap string pyval).

(** Truth value testing ([if v:], [not v], [a or b]). *)
Definition truthy (v : pyval) : bool :=
  match v with
  | VNone => false
  | VBool b => b
  | VInt z => negb (z =? 0)
  | VStr s => negb (String.eqb s "")
  | VList l => match l with [] => false | _ => true end
  | VDict d => match size d with O => false | _ => true end
  end.

(** [a or b] *)
Definition py_or (a b : pyval) : pyval := if truthy a then a else b.

(** [v is None] *)
Definition is_none (v : pyval) : bool :=
  match v with VNone => true | _ => false end.

(** [v == s] for a string literal [s]. *)
Definition eq_str (v : pyval) (s : string) : bool :=
  match v with VStr t => String.eqb t s | _ => false end.

(** [d.get(k)] on a dict: [None] when the key is missing. *)
Definition dict_get (d : gmap string pyval) (k : string) : pyval :=
  default VNone (d !! k).

(** [str(v)].  The [repr] of a list or dict is left to the caller. *)
Definition py_str (repr : pyval → string) (v : pyval) : string :=
  match v with
  | VNone => "None"
  | VBool true => "True"
  | VBool false => "False"
  | VInt z => pretty z
  | VStr s => s
  | VList _ | VDict _ => repr v
  end.

(** ** build_tag_suffix *)

Section tag_suffix.
Variable repr : pyval → string.

(** One [if x: tags.append(str(x).upper())] step. *)
Definition append_tag (tags : list string) (v : pyval) : list string :=
  if truthy v then tags ++ [PyStr.upper (py_str repr v)] else tags.

(** The body of the [for t in tags] loop on the pair [(seen, uniq)]. *)
Definition uniq_step (acc : gset string * list string) (t : string)
  : gset string * list string :=
  let '(seen, uniq) := acc in
  if decide (t ∈ seen) then acc else ({[t]} ∪ seen, uniq ++ [t]).

Definition uniq_loop (tags : list string) : gset string * list string :=
  fold_left uniq_step tags (∅, []).

Definition build_tag_suffix (info : gmap string pyval) : string :=
  let tags := [] in
  let screen := dict_get info "screen_size" in
  let tags := append_tag tags screen in
  let source := dict_get info "source" in
  let tags := append_tag tags source in
  let video := dict_get info "video_codec" in
  let tags := append_tag tags video in
  let audio := dict_get info "audio_codec" in
  let tags := append_tag tags audio in
  let uniq := (uniq_loop tags).2 in
  match uniq with
  | [] => ""
  | _ => " [" +:+ PyStr.join " " uniq +:+ "]"
  end.

(** The specification's reading of the tag list: the four tag fields in
    the order (screenSize, source, videoCodec, audioCodec), those that are
    present, each uppercased. *)
Definition tag_fields : list string :=
  ["screen_size"; "source"; "video_codec"; "audio_codec"].

Definition field_tokens (info : gmap string pyval) : list string :=
  omap (λ k, let v := dict_get info k in
             if truthy v then Some (PyStr.upper (py_str repr v)) else None)
       tag_fields.

(** First-seen order without repeats: an element is kept where it first
    occurs and dropped everywhere after. *)
Fixpoint first_seen (l : list string) : list string :=
  match l with
  | [] => []
  | x :: l' => x :: filter (λ y, y ≠ x) (first_seen l')
  end.

End tag_suffix.

(** ** pathlib paths (POSIX flavour)

    A path is its root ([""], ["/"] or ["//"]) and its components; parsing
    drops empty and ["."] components, as [PurePosixPath] does. *)

Record Path : Type := MkPath { root : string; parts : list string }.

Module PyPath.

Definition parse_root (s : string) : string :=
  match s with
  | String "/" (String "/" (String "/" _)) => "/"
  | String "/" (String "/" _) => "//"
  | String "/" _ => "/"
  | _ => ""
  end.

Definition keep_part (c : string) : bool :=
  negb (String.eqb c "") && negb (String.eqb c ".").

Definition parse_parts (s : string) : list string :=
  List.filter keep_part (PyStr.split_slash s).

(** [Path(s)] *)
Definition parse (s : string) : Path :=
  {| root := parse_root s; parts := parse_parts s |}.

(** [p / s] for a string [s]: a rooted [s] replaces [p]. *)
Definition div (p : Path) (s : string) : Path :=
  let q := parse s in
  if String.eqb (root q) ""
  then {| root := root p; parts := parts p ++ parts q |}
  else q.

(** [str(p)] *)
Definition str (p : Path) : string :=
  match root p, parts p with
  | "", [] => "."
  | r, ps => r +:+ PyStr.join "/" ps
  end.

(** [p.name]: the final component, [""] when there is none. *)
Definition name (p : Path) : string := List.last (parts p) "".

(** [p.suffix]: from the last dot of the name, unless that dot is the
    first or the last character. *)
Definition suffix (p : Path) : string :=
  let n := name p in
  match PyStr.rfind_dot n with
  | Some i =>
      if ((0 <? i) && (i <? String.length n - 1))%nat
      then PyStr.drop i n else ""
  | None => ""
  end.

End PyPath.

Notation "p // s" := (PyPath.div p s) (at level 40, left associativity).

(** ** Effects: events, exceptions, oracles *)

Inductive Level : Type := DEBUG | INFO | WARNING | ERROR.

(** One event per call that leaves the interpreter, in call order. *)
Inductive Event : Type :=
  | EExists (p : string)                         (* Path.exists() *)
  | EWalk (p : string)                           (* os.walk(p) *)
  | EIsFile (p : string)                         (* Path.is_file() *)
  | EStat (p : string)                           (* Path.stat() *)
  | EGuessit (name : string)                     (* guessit(name) *)
  | EGet (url : string) (params : gmap string pyval)   (* requests.get *)
  | EMkdir (p : string)                          (* mkdir(parents, exist_ok) *)
  | EMove (src dst : string)                     (* shutil.move(src, dst) *)
  | ELog (lvl : Level) (fmt : string) (args : list pyval)  (* logging.* *)
  | ESendResponse (code : Z)                     (* send_response(code) *)
  | EEndHeaders                                  (* end_headers() *)
  | EWrite (body : string).                      (* wfile.write(body) *)

(** A Python exception (a subclass of [Exception]): one raised by an
    external call, with the text the world gives it, or one raised by the
    interpreter on an operation the value does not support, with the
    expression that failed. *)
Inductive exn : Type :=
  | ExternalError (msg : string)
  | OperandError (expr : string).

Definition exn_text (e : exn) : string :=
  match e with ExternalError m => m | OperandError m => m end.

Inductive result (A : Type) : Type :=
  | Ok (a : A)
  | Raise (e : exn).
Arguments Ok {A} a.
Arguments Raise {A} e.

(** What [requests.get] does: it raises (connection error, timeout), or it
    returns a response with its [ok] flag and what [r.json()] gives. *)
Inductive http_outcome : Type :=
  | RequestFailed (msg : string)
  | Response (ok : bool) (json : result pyval).

(** The module-level configuration, read from the environment at import. *)
Record Config : Type := {
  DOWNLOADS_DIR : Path;
  MOVIES_DIR : Path;
  TV_DIR : Path;
  TMDB_API_KEY : string;
  SLEEP_SECONDS : Z;
}.

Definition TMDB_BASE : string := "https://api.themoviedb.org/3".
Definition MIN_SIZE_BYTES : Z := 50 * 1024 * 1024.

(** The world outside the interpreter.  Every answer may depend on the
    trace of the calls made so far. *)
Record World : Type := {
  py_repr : pyval → string;
  guessit : string → result (gmap string pyval);
  requests_get : list Event → string → gmap string pyval → http_outcome;
  fs_exists : list Event → string → result bool;
  fs_walk : list Event → string → list (string * list string);
  fs_is_file : list Event → string → result bool;
  fs_stat_size : list Event → string → result Z;
  fs_mkdir : list Event → string → result unit;
  fs_move : list Event → string → string → result unit;
}.

(** Computations: a trace in, a result or an exception and a trace out. *)
Definition M (A : Type) : Type := list Event → result A * list Event.

Definition ret {A} (a : A) : M A := λ tr, (Ok a, tr).

Definition bind {A B} (m : M A) (k : A → M B) : M B :=
  λ tr, match m tr with
        | (Ok a, tr') => k a tr'
        | (Raise e, tr') => (Raise e, tr')
        end.

(** [try: m  except Exception as e: h e] *)
Definition try_except {A} (m : M A) (h : exn → M A) : M A :=
  λ tr, match m tr with
        | (Ok a, tr') => (Ok a, tr')
        | (Raise e, tr') => h e tr'
        end.

(** An external call: the world answers from the trace so far, and the
    call is appended to the trace. *)
Definition call {A} (answer : list Event → result A) (ev : Event) : M A :=
  λ tr, (answer tr, tr ++ [ev]).

Definition lift {A} (r : result A) : M A := λ tr, (r, tr).

Declare Scope prog_scope.
Delimit Scope prog_scope with prog.
Notation "'let!' x ':=' m 'in' k" := (bind m (λ x, k))
  (at level 10, x name, m at level 100, k at level 200,
   only parsing) : prog_scope.
Notation "y ;; z" := (bind y (λ _, z))
  (at level 100, z at level 200, only parsing, right associativity) : prog_scope.
Open Scope prog_scope.

(** [for x in l: body x] *)
Fixpoint for_each {A} (l : list A) (body : A → M unit) : M unit :=
  match l with
  | [] => ret tt
  | x :: l' => body x;; for_each l' body
  end.

Definition log (lvl : Level) (fmt : string) (args : list pyval) : M unit :=
  call (λ _, Ok tt) (ELog lvl fmt args).

(** ** Operations on dynamic values that can raise *)

(** [v.get(k)]: only a dict has [get]. *)
Definition py_get (v : pyval) (k : string) : result pyval :=
  match v with
  | VDict d => Ok (dict_get d k)
  | _ => Raise (OperandError "get")
  end.

(** [v[0]] *)
Definition py_first (v : pyval) : result pyval :=
  match v with
  | VList (x :: _) => Ok x
  | VStr (String c _) => Ok (VStr (String c ""))
  | _ => Raise (OperandError "[0]")
  end.

(** [v[:4]] *)
Definition py_slice4 (v : pyval) : result pyval :=
  match v with
  | VStr s => Ok (VStr (PyStr.take 4 s))
  | VList l => Ok (VList (take 4 l))
  | _ => Raise (OperandError "[:4]")
  end.

(** [v.isdigit()] *)
Definition py_isdigit (v : pyval) : result bool :=
  match v with
  | VStr s => Ok (PyStr.isdigit s)
  | _ => Raise (OperandError "isdigit")
  end.

(** [int(v)] on a string of digits.  The program calls it on nothing else;
    any other argument is made to raise. *)
Definition py_int (v : pyval) : result pyval :=
  match v with
  | VStr s => if PyStr.isdigit s then Ok (VInt (PyStr.int s))
              else Raise (OperandError "int")
  | _ => Raise (OperandError "int")
  end.

(** [f"{v:02d}"]: integers only ([bool] is an [int]). *)
Definition py_format_02d (v : pyval) : result string :=
  match v with
  | VInt z => Ok (PyStr.format_02d z)
  | VBool b => Ok (PyStr.format_02d (if b then 1 else 0))
  | _ => Raise (OperandError "format 02d")
  end.

(** [p / v]: the right operand must be a string. *)
Definition py_div (p : Path) (v : pyval) : result Path :=
  match v with
  | VStr s => Ok (p // s)
  | _ => Raise (OperandError "Path / value")
  end.

(** The dicts the resolvers return. *)
Record MovieMatch : Type := { m_title : pyval; m_year : pyval }.
Record TvMatch : Type := { t_name : pyval; t_year : pyval }.

(** ** The program *)

Section organizer.
Variable cfg : Config.
Variable w : World.

Definition logging_info := log INFO.
Definition logging_warning := log WARNING.
(** [logging.exception] logs at level ERROR. *)
Definition logging_exception := log ERROR.

Definition path_arg (p : Path) : pyval := VStr (PyPath.str p).
Definition exn_arg (e : exn) : pyval := VStr (exn_text e).

(** [requests.get(url, params=params, timeout=10)]: the pair of [r.ok] and
    what [r.json()] will give. *)
Definition requests_get_call (url : string) (params : gmap string pyval)
  : M (bool * result pyval) :=
  call (λ tr, match requests_get w tr url params with
              | RequestFailed msg => Raise (ExternalError msg)
              | Response ok js => Ok (ok, js)
              end)
       (EGet url params).

(** The [params] dict of the movie search: [year] is added when truthy. *)
Definition movie_params (title year : pyval) : gmap string pyval :=
  let params : gmap string pyval :=
    {[ "api_key" := VStr (TMDB_API_KEY cfg); "query" := title ]} in
  if truthy year then <["year" := year]> params else params.

Definition tv_params (title : pyval) : gmap string pyval :=
  {[ "api_key" := VStr (TMDB_API_KEY cfg); "query" := title ]}.

Definition movie_url : string := TMDB_BASE +:+ "/search/movie".
Definition tv_url : string := TMDB_BASE +:+ "/search/tv".

Definition tmdb_search_movie (title year : pyval) : M (option MovieMatch) :=
  if negb (truthy (VStr (TMDB_API_KEY cfg))) then ret None else
  let params := movie_params title year in
  let! r := requests_get_call movie_url params in
  if negb r.1 then ret None else
  let! data := lift r.2 in
  let! results := lift (py_get data "results") in
  let results := py_or results (VList []) in
  if negb (truthy results) then ret None else
  let! best := lift (py_first results) in
  let! release_date := lift (py_get best "release_date") in
  let release_date := py_or release_date (VStr "") in
  let! prefix := lift (py_slice4 release_date) in
  let! digits := lift (py_isdigit prefix) in
  let! movie_year := (if digits then lift (py_int prefix)
                else if truthy year then ret year
                else ret VNone) in
  let! best_title := lift (py_get best "title") in
  ret (Some {| m_title := py_or best_title title; m_year := movie_year |}).

Definition tmdb_search_tv (title : pyval) : M (option TvMatch) :=
  if negb (truthy (VStr (TMDB_API_KEY cfg))) then ret None else
  let params := tv_params title in
  let! r := requests_get_call tv_url params in
  if negb r.1 then ret None else
  let! data := lift r.2 in
  let! results := lift (py_get data "results") in
  let results := py_or results (VList []) in
  if negb (truthy results) then ret None else
  let! best := lift (py_first results) in
  let! name := lift (py_get best "name") in
  let name := py_or name title in
  let! first_air := lift (py_get best "first_air_date") in
  let first_air := py_or first_air (VStr "") in
  let! prefix := lift (py_slice4 first_air) in
  let! digits := lift (py_isdigit prefix) in
  let! year := (if digits then lift (py_int prefix) else ret VNone) in
  ret (Some {| t_name := name; t_year := year |}).

Definition tag_suffix_of (info : gmap string pyval) : string :=
  build_tag_suffix (py_repr w) info.

Definition mkdir (p : Path) : M unit :=
  call (λ tr, fs_mkdir w tr (PyPath.str p)) (EMkdir (PyPath.str p)).

Definition shutil_move (src dst : string) : M unit :=
  call (λ tr, fs_move w tr src dst) (EMove src dst).

Definition handle_episode (path : Path) (info : gmap string pyval) : M unit :=
  let title := dict_get info "title" in
  let season := dict_get info "season" in
  let episode := dict_get info "episode" in
  if negb (truthy title) || is_none season || is_none episode then
    logging_info "Skipping episode (missing title/season/episode): %s"
                 [path_arg path]
  else
  let show_name := title in
  let! tmdb_info := tmdb_search_tv title in
  let show_name :=
    match tmdb_info with
    | Some m => py_or (t_name m) show_name
    | None => show_name
    end in
  let tag_suffix := tag_suffix_of info in
  let! show_dir := lift (py_div (TV_DIR cfg) show_name) in
  let! ss := lift (py_format_02d season) in
  let season_dir := show_dir // ("Season " +:+ ss) in
  mkdir season_dir;;
  let! ss := lift (py_format_02d season) in
  let! ee := lift (py_format_02d episode) in
  let new_name :=
    py_str (py_repr w) show_name +:+ " - S" +:+ ss +:+ "E" +:+ ee
      +:+ tag_suffix +:+ PyPath.suffix path in
  let dest := season_dir // new_name in
  logging_info "TV: %s -> %s" [path_arg path; path_arg dest];;
  shutil_move (PyPath.str path) (PyPath.str dest).

Definition handle_movie (path : Path) (info : gmap string pyval) : M unit :=
  let title := dict_get info "title" in
  let year := dict_get info "year" in
  if negb (truthy title) then
    logging_info "Skipping movie (missing title): %s" [path_arg path]
  else
  let! tmdb_info := tmdb_search_movie title year in
  let title :=
    match tmdb_info with Some m => py_or (m_title m) title | None => title end in
  let year :=
    match tmdb_info with Some m => py_or (m_year m) year | None => year end in
  let tag_suffix := tag_suffix_of info in
  mkdir (MOVIES_DIR cfg);;
  let base :=
    if truthy year
    then py_str (py_repr w) title +:+ " (" +:+ py_str (py_repr w) year +:+ ")"
    else py_str (py_repr w) title in
  let new_name := base +:+ tag_suffix +:+ PyPath.suffix path in
  let dest := MOVIES_DIR cfg // new_name in
  logging_info "Movie: %s -> %s" [path_arg path; path_arg dest];;
  shutil_move (PyPath.str path) (PyPath.str dest).

Definition is_file (p : Path) : M bool :=
  call (λ tr, fs_is_file w tr (PyPath.str p)) (EIsFile (PyPath.str p)).

Definition stat_st_size (p : Path) : M Z :=
  call (λ tr, fs_stat_size w tr (PyPath.str p)) (EStat (PyPath.str p)).

Definition guessit_call (name : string) : M (gmap string pyval) :=
  call (λ _, guessit w name) (EGuessit name).

(** [logging.debug] is below the configured level INFO and leaves no
    record; its argument [json.dumps(info, indent=2, default=str)] is
    evaluated and does not raise on a dict with string keys. *)
Definition process_file (path : Path) : M unit :=
  let! regular := is_file path in
  if negb regular then ret tt else
  let! size := stat_st_size path in
  if size <? MIN_SIZE_BYTES then
    logging_info "Skipping small file: %s" [path_arg path]
  else
  let! info := guessit_call (PyPath.name path) in
  let kind := dict_get info "type" in
  if eq_str kind "episode" then handle_episode path info
  else if eq_str kind "movie" then handle_movie path info
  else logging_info "Unknown type (%s) for %s; skipping" [kind; path_arg path].

Definition exists_ (p : Path) : M bool :=
  call (λ tr, fs_exists w tr (PyPath.str p)) (EExists (PyPath.str p)).

(** The [(root, files)] of the triples [os.walk] yields; errors while
    listing are ignored by [os.walk] itself. *)
Definition os_walk (p : Path) : M (list (string * list string)) :=
  call (λ tr, Ok (fs_walk w tr (PyPath.str p))) (EWalk (PyPath.str p)).

(** The body of the inner loop of [sweep_once]. *)
Definition sweep_file (root name : string) : M unit :=
  let path := PyPath.parse root // name in
  try_except (process_file path)
    (λ e, logging_exception "Error processing %s: %s" [path_arg path; exn_arg e]).

Definition sweep_once : M unit :=
  let! present := exists_ (DOWNLOADS_DIR cfg) in
  if negb present then
    logging_warning "Downloads dir %s does not exist" [path_arg (DOWNLOADS_DIR cfg)]
  else
  let! walk := os_walk (DOWNLOADS_DIR cfg) in
  for_each walk (λ '(root, files),
    for_each files (λ name, sweep_file root name)).

Definition send_response (code : Z) : M unit :=
  call (λ _, Ok tt) (ESendResponse code).
Definition end_headers : M unit := call (λ _, Ok tt) EEndHeaders.
Definition wfile_write (body : string) : M unit :=
  call (λ _, Ok tt) (EWrite body).

(** [TriggerHandler.do_POST], on the request's path. *)
Definition do_POST (self_path : string) : M unit :=
  if String.eqb self_path "/scan-once" then
    logging_info "HTTP trigger received: running sweep_once()" [];;
    try_except
      (sweep_once;; send_response 200;; end_headers;; wfile_write "OK")
      (λ e,
         logging_exception "Error in sweep_once() from HTTP trigger: %s" [exn_arg e];;
         send_response 500;; end_headers;; wfile_write "ERROR")
  else
    send_response 404;; end_headers.

(** [server.serve_forever()] over the POST requests that arrive, given by
    their paths; the server reports an exception of a handler and goes on
    with the next request. *)
Definition serve_forever (posts : list string) : M unit :=
  for_each posts (λ p, try_except (do_POST p) (λ _, ret tt)).

(** [main()], with [sys.argv] and, for the server mode, the POST requests
    that arrive while it serves. *)
Definition main (argv : list string) (posts : list string) : M unit :=
  let run_once := bool_decide ("--once" ∈ argv) in
  logging_info "Organizer starting. run_once=%s downloads_dir=%s"
               [VBool run_once; path_arg (DOWNLOADS_DIR cfg)];;
  (if negb (truthy (VStr (TMDB_API_KEY cfg)))
   then logging_warning "TMDB_API_KEY not set; using filename info only." []
   else ret tt);;
  if run_once then sweep_once else
  logging_info "HTTP trigger server listening on 0.0.0.0:8000" [];;
  serve_forever posts.

End organizer.

(** ** Observations on traces *)

(** The paths whose processing was begun: [process_file] starts with
    [path.is_file()], and nothing else calls it. *)
Definition attempts (evs : list Event) : list string :=
  omap (λ e, match e with EIsFile p => Some p | _ => None end) evs.

(** The names handed to the filename parser. *)
Definition parser_calls (evs : list Event) : list string :=
  omap (λ e, match e with EGuessit n => Some n | _ => None end) evs.

(** The moves issued, as (source, destination). *)
Definition moves (evs : list Event) : list (string * string) :=
  omap (λ e, match e with EMove s d => Some (s, d) | _ => None end) evs.

(** The sweeps begun: [sweep_once] starts with [DOWNLOADS_DIR.exists()],
    and nothing else calls it. *)
Definition sweeps (evs : list Event) : list string :=
  omap (λ e, match e with EExists p => Some p | _ => None end) evs.

(** The status codes sent to HTTP clients. *)
Definition statuses (evs : list Event) : list Z :=
  omap (λ e, match e with ESendResponse c => Some c | _ => None end) evs.

(** The events of one file's processing after its [is_file()] call. *)
Definition file_event (e : Event) : Prop :=
  match e with
  | EStat _ | EGuessit _ | EGet _ _ | EMkdir _ | EMove _ _ | ELog _ _ _ => True
  | _ => False
  end.

(** The events of a sweep after its [exists()] call. *)
Definition sweep_event (e : Event) : Prop :=
  match e with
  | EWalk _ | EIsFile _ => True
  | _ => file_event e
  end.

(** [m] only ever appends to the trace, and appends events in [P] only. *)
Definition emits {A} (P : Event → Prop) (m : M A) : Prop :=
  ∀ tr, ∃ evs, (m tr).2 = tr ++ evs ∧ Forall P evs.

(** The paths of a walk, in the order the loops of [sweep_once] build
    them. *)
Definition walk_paths (walk : list (string * list string)) : list Path :=
  concat (map (λ rf : string * list string,
                 map (λ name, PyPath.parse rf.1 // name) rf.2) walk).

(** ** Vocabulary of the specification *)


(** A string that is one path component: not empty, not ["."], and
    without a separator. *)
Definition plain (s : string) : Prop :=
  PyStr.no_slash s = true ∧ s ≠ "" ∧ s ≠ ".".

(** Components of a path never hold a separator. *)
Definition wf_path (p : Path) : Prop :=
  Forall (λ c, PyStr.no_slash c = true) (parts p).




(** A configuration with another sweep interval. *)
Definition with_sleep_seconds (n : Z) (cfg : Config) : Config :=
  {| DOWNLOADS_DIR := DOWNLOADS_DIR cfg;
     MOVIES_DIR := MOVIES_DIR cfg;
     TV_DIR := TV_DIR cfg;
     TMDB_API_KEY := TMDB_API_KEY cfg;
     SLEEP_SECONDS := n |}.

(** ** Concrete configurations and worlds *)

Module Demo.

Definition config (key : string) : Config :=
  {| DOWNLOADS_DIR := PyPath.parse "/downloads/complete";
     MOVIES_DIR := PyPath.parse "/media/movies";
     TV_DIR := PyPath.parse "/media/tv";
     TMDB_API_KEY := key;
     SLEEP_SECONDS := 300 |}.

Definition info_episode : gmap string pyval :=
  list_to_map [("type", VStr "episode"); ("title", VStr "Breaking Bad");
               ("season", VInt 1); ("episode", VInt 1);
               ("screen_size", VStr "1080p")].

Definition info_movie : gmap string pyval :=
  list_to_map [("type", VStr "movie"); ("title", VStr "Inception");
               ("year", VInt 2010)].

Definition info_movie_no_year : gmap string pyval :=
  list_to_map [("type", VStr "movie"); ("title", VStr "Inception")].

(** Two fields that give the same token once uppercased. *)
Definition info_repeated_tag : gmap string pyval :=
  list_to_map [("screen_size", VStr "1080p"); ("source", VStr "web");
               ("video_codec", VStr "WEB"); ("audio_codec", VStr "aac")].

Definition parser (name : string) : result (gmap string pyval) :=
  if String.eqb name "Breaking.Bad.S01E01.1080p.mkv" then Ok info_episode
  else if String.eqb name "Inception.2010.mp4" then Ok info_movie
  else Ok ∅.

(** A response body as TMDB returns it: a dict whose ["results"] holds one
    candidate. *)
Definition candidate (date : string) : gmap string pyval :=
  list_to_map [("title", VStr "Inception"); ("name", VStr "Breaking Bad");
               ("release_date", VStr date); ("first_air_date", VStr date)].

Definition tmdb_data (date : string) : gmap string pyval :=
  {[ "results" := VList [VDict (candidate date)] ]}.

Definition tmdb_body (date : string) : pyval := VDict (tmdb_data date).

(** A world where every file is a large regular file and every file
    system call succeeds; [http] answers the requests. *)
Definition world (http : http_outcome) (root_exists : bool)
                 (walk : list (string * list string)) (size : Z) : World :=
  {| py_repr := λ _, "";
     guessit := parser;
     requests_get := λ _ _ _, http;
     fs_exists := λ _ _, Ok root_exists;
     fs_walk := λ _ _, walk;
     fs_is_file := λ _ _, Ok true;
     fs_stat_size := λ _ _, Ok size;
     fs_mkdir := λ _ _, Ok tt;
     fs_move := λ _ _ _, Ok tt |}.

Definition offline : http_outcome := RequestFailed "connection refused".

Definition walk1 : list (string * list string) :=
  [("/downloads/complete", ["Breaking.Bad.S01E01.1080p.mkv"; "notes.txt"]);
   ("/downloads/complete/films", ["Inception.2010.mp4"])].

(** A world where the second file of the walk cannot be inspected. *)
Definition world_stat_fails : World :=
  {| py_repr := λ _, "";
     guessit := parser;
     requests_get := λ _ _ _, offline;
     fs_exists := λ _ _, Ok true;
     fs_walk := λ _ _, walk1;
     fs_is_file := λ _ _, Ok true;
     fs_stat_size := λ _ p,
       if String.eqb p "/downloads/complete/notes.txt"
       then Raise (ExternalError "permission denied") else Ok 100000000;
     fs_mkdir := λ _ _, Ok tt;
     fs_move := λ _ _ _, Ok tt |}.


Definition episode_path : Path :=
  PyPath.parse "/downloads/complete" // "Breaking.Bad.S01E01.1080p.mkv".

Definition movie_path : Path :=
  PyPath.parse "/downloads/complete/films" // "Inception.2010.mp4".

End Demo.

(** ** Further observations and scenarios *)

(** The URLs requested over HTTP. *)
Definition requests_made (evs : list Event) : list string :=
  omap (λ e, match e with EGet u _ => Some u | _ => None end) evs.

(** The bodies written to HTTP clients. *)
Definition bodies (evs : list Event) : list string :=
  omap (λ e, match e with EWrite b => Some b | _ => None end) evs.

(** The directories whose creation was asked for. *)
Definition mkdirs (evs : list Event) : list string :=
  omap (λ e, match e with EMkdir p => Some p | _ => None end) evs.

Definition no_move_event (e : Event) : Prop :=
  match e with EMove _ _ => False | _ => True end.

Definition no_get_event (e : Event) : Prop :=
  match e with EGet _ _ => False | _ => True end.

(** Events that leave the file system as it is. *)
Definition no_change_event (e : Event) : Prop :=
  match e with EMkdir _ | EMove _ _ => False | _ => True end.

(** What the two handlers can emit. *)
Definition handler_event (e : Event) : Prop :=
  match e with
  | EGet _ _ | EMkdir _ | EMove _ _ | ELog _ _ _ => True
  | _ => False
  end.

(** Events that create no directory other than [d]. *)
Definition only_mkdir (d : string) (e : Event) : Prop :=
  match e with EMkdir p => p = d | _ => True end.

(** [m] appends to the trace, and moves nothing or [src] alone, once. *)
Definition moves_own {A} (src : string) (m : M A) : Prop :=
  ∀ tr, ∃ evs, (m tr).2 = tr ++ evs
               ∧ (moves evs = [] ∨ ∃ dst, moves evs = [(src, dst)]).

Module Scenes.


(** A season pack: no episode number. *)
Definition info_season_pack : gmap string pyval :=
  list_to_map [("type", VStr "episode"); ("title", VStr "Breaking Bad");
               ("season", VInt 1)].

Definition info_untitled : gmap string pyval :=
  list_to_map [("type", VStr "movie"); ("year", VInt 2010)].

Definition info_other : gmap string pyval :=
  list_to_map [("type", VStr "subtitle"); ("title", VStr "Inception")].

Definition parser (name : string) : result (gmap string pyval) :=
  if String.eqb name "notes.txt" then Ok info_other else Demo.parser name.

(** A world like [Demo.world] with its own parser, where the root's
    [exists()] answers [root]. *)
Definition world (http : http_outcome) (root : result bool) : World :=
  {| py_repr := λ _, "";
     guessit := parser;
     requests_get := λ _ _ _, http;
     fs_exists := λ _ _, root;
     fs_walk := λ _ _, Demo.walk1;
     fs_is_file := λ _ _, Ok true;
     fs_stat_size := λ _ _, Ok 100000000;
     fs_mkdir := λ _ _, Ok tt;
     fs_move := λ _ _ _, Ok tt |}.

(** A world where no directory can be created. *)
Definition world_read_only : World :=
  {| py_repr := λ _, "";
     guessit := parser;
     requests_get := λ _ _ _, Demo.offline;
     fs_exists := λ _ _, Ok true;
     fs_walk := λ _ _, Demo.walk1;
     fs_is_file := λ _ _, Ok true;
     fs_stat_size := λ _ _, Ok 100000000;
     fs_mkdir := λ _ _, Raise (ExternalError "read-only file system");
     fs_move := λ _ _ _, Ok tt |}.

Definition notes_path : Path := PyPath.parse "/downloads/complete" // "notes.txt".

(** A response whose first candidate has a separator in its title. *)
Definition face_off_body : pyval :=
  VDict {[ "results" :=
             VList [VDict (list_to_map [("title", VStr "Face/Off");
                                        ("release_date", VStr "1997-06-27")])] ]}.

Definition info_face_off : gmap string pyval :=
  list_to_map [("type", VStr "movie"); ("title", VStr "Face Off");
               ("year", VInt 1997)].





End Scenes.

(** * Properties *)

(** ** Running computations *)

Lemma run_bind {A B} (m : M A) (k : A → M B) tr a tr' :
  m tr = (Ok a, tr') → bind m k tr = k a tr'.
Proof. unfold bind. by intros ->. Qed.

Lemma run_bind_raise {A B} (m : M A) (k : A → M B) tr e tr' :
  m tr = (Raise e, tr') → bind m k tr = (Raise e, tr').
Proof. unfold bind. by intros ->. Qed.

Lemma run_lift {A B} (a : A) (k : A → M B) tr : bind (lift (Ok a)) k tr = k a tr.
Proof. done. Qed.


Lemma run_call {A} (answer : list Event → result A) ev tr :
  call answer ev tr = (answer tr, tr ++ [ev]).
Proof. done. Qed.

Lemma run_log lvl fmt args tr :
  log lvl fmt args tr = (Ok tt, tr ++ [ELog lvl fmt args]).
Proof. done. Qed.

(** Runs a straight-line sequence of calls that cannot raise. *)
Ltac run_prims :=
  unfold logging_info, logging_warning, logging_exception,
    send_response, end_headers, wfile_write, log, call, bind, ret;
  simpl; rewrite <- ?app_assoc; simpl.

(** ** build_tag_suffix *)

Lemma elem_of_first_seen (l : list string) x : x ∈ first_seen l ↔ x ∈ l.
Proof.
  induction l as [|y l IH]; simpl; [done|].
  rewrite !elem_of_cons, list_elem_of_filter, IH.
  destruct (decide (x = y)); naive_solver.
Qed.

Lemma NoDup_first_seen (l : list string) : NoDup (first_seen l).
Proof.
  induction l as [|y l IH]; simpl; constructor.
  - rewrite list_elem_of_filter. naive_solver.
  - by apply NoDup_filter.
Qed.

(** The loop invariant of [for t in tags]: from [(seen, uniq)], the loop
    appends to [uniq] the first occurrences of what is not in [seen]. *)
Lemma uniq_loop_from (l : list string) (seen : gset string) (uniq : list string) :
  (fold_left uniq_step l (seen, uniq)).2
  = uniq ++ filter (λ y, y ∉ seen) (first_seen l).
Proof.
  revert seen uniq. induction l as [|x l IH]; intros seen uniq; simpl.
  { by rewrite app_nil_r. }
  destruct (decide (x ∈ seen)) as [Hin|Hnin].
  - rewrite IH. f_equal. rewrite filter_cons_False by (intros ?; done).
    rewrite list_filter_filter. apply list_filter_iff. set_solver.
  - rewrite IH, <- app_assoc. f_equal. simpl.
    rewrite filter_cons_True by done. f_equal.
    rewrite list_filter_filter. apply list_filter_iff. set_solver.
Qed.

Lemma uniq_loop_first_seen (tags : list string) :
  (uniq_loop tags).2 = first_seen tags.
Proof.
  unfold uniq_loop. rewrite uniq_loop_from. simpl.
  induction (first_seen tags) as [|y k IH]; [done|].
  rewrite filter_cons_True by set_solver. by f_equal.
Qed.

Lemma tags_field_tokens repr (info : gmap string pyval) :
  append_tag repr
    (append_tag repr
       (append_tag repr
          (append_tag repr [] (dict_get info "screen_size"))
          (dict_get info "source"))
       (dict_get info "video_codec"))
    (dict_get info "audio_codec")
  = field_tokens repr info.
Proof.
  unfold field_tokens, append_tag, tag_fields. simpl.
  by repeat (destruct (truthy _)).
Qed.

(** C3. [build_tag_suffix] is the empty string exactly when no tag field
    is present (truthy), and otherwise [" [T1 T2 ...]"] where the tokens are
    the uppercased values of the present fields among (screen_size, source,
    video_codec, audio_codec), each kept where it is first seen, so that no
    token occurs twice and every field's token occurs. *)
Theorem build_tag_suffix_spec (repr : pyval → string) (info : gmap string pyval) :
  let toks := first_seen (field_tokens repr info) in
  NoDup toks
  ∧ (∀ t, t ∈ toks ↔ t ∈ field_tokens repr info)
  ∧ (field_tokens repr info = []
     ↔ ∀ k, k ∈ tag_fields → truthy (dict_get info k) = false)
  ∧ build_tag_suffix repr info
    = match field_tokens repr info with
      | [] => ""
      | _ => " [" +:+ PyStr.join " " toks +:+ "]"
      end.
Proof.
  intros toks. split; [apply NoDup_first_seen|].
  split; [intros t; apply elem_of_first_seen|]. split.
  - unfold field_tokens, tag_fields. split.
    + intros H k Hk. simpl in H.
      repeat (apply elem_of_cons in Hk as [->|Hk]);
        [..|by apply elem_of_nil in Hk];
        repeat (destruct (truthy (dict_get info _)); try done).
    + intros H. simpl.
      rewrite !H by (repeat (apply elem_of_cons; (by left) || right); done).
      done.
  - unfold build_tag_suffix. cbv zeta.
    rewrite tags_field_tokens, uniq_loop_first_seen. fold toks.
    destruct (field_tokens repr info) eqn:E; [done|].
    subst toks. simpl. done.
Qed.

Example build_tag_suffix_repeated :
  build_tag_suffix (λ _, "") Demo.info_repeated_tag = " [1080P WEB AAC]"
  ∧ build_tag_suffix (λ _, "") Demo.info_movie = "".
Proof. by vm_compute. Qed.

(** ** process_file: the guards before classification *)



(** C6. A regular file smaller than [MIN_SIZE_BYTES] (50 MiB) is logged as
    skipped right after the size is read: its name never reaches the parser
    and no move is issued. *)
Theorem process_file_small (cfg : Config) (w : World) (path : Path)
    (tr : list Event) (size : Z) :
  let p := PyPath.str path in
  let evs := [EIsFile p; EStat p; ELog INFO "Skipping small file: %s" [VStr p]] in
  fs_is_file w tr p = Ok true →
  fs_stat_size w (tr ++ [EIsFile p]) p = Ok size →
  size < MIN_SIZE_BYTES →
  MIN_SIZE_BYTES = 50 * 2 ^ 20
  ∧ process_file cfg w path tr = (Ok tt, tr ++ evs)
  ∧ parser_calls evs = []
  ∧ moves evs = [].
Proof.
  intros p evs Hfile Hstat Hsmall. subst evs p.
  split; [done|]. split; [|done].
  unfold process_file.
  erewrite run_bind; [|unfold is_file; by rewrite run_call, Hfile].
  simpl.
  erewrite run_bind; [|unfold stat_st_size; by rewrite run_call, Hstat].
  apply Z.ltb_lt in Hsmall. rewrite Hsmall.
  unfold logging_info. rewrite run_log, <- !app_assoc. done.
Qed.

Lemma process_file_small_witness :
  process_file (Demo.config "")
    (Demo.world Demo.offline true Demo.walk1 1024)
    Demo.movie_path []
  = (Ok tt,
     [EIsFile "/downloads/complete/films/Inception.2010.mp4";
      EStat "/downloads/complete/films/Inception.2010.mp4";
      ELog INFO "Skipping small file: %s"
        [VStr "/downloads/complete/films/Inception.2010.mp4"]]).
Proof.
  refine (proj1 (proj2 (process_file_small (Demo.config "")
    (Demo.world Demo.offline true Demo.walk1 1024)
    Demo.movie_path [] 1024 eq_refl eq_refl _))).
  by vm_compute.
Defined.

(** Past both guards, the file's name goes to the parser and the kind it
    returns selects the handler. *)
Lemma process_file_dispatch (cfg : Config) (w : World) (path : Path)
    (tr : list Event) (size : Z) (info : gmap string pyval) :
  let p := PyPath.str path in
  let tr' := tr ++ [EIsFile p; EStat p; EGuessit (PyPath.name path)] in
  fs_is_file w tr p = Ok true →
  fs_stat_size w (tr ++ [EIsFile p]) p = Ok size →
  MIN_SIZE_BYTES ≤ size →
  guessit w (PyPath.name path) = Ok info →
  process_file cfg w path tr
  = if eq_str (dict_get info "type") "episode" then handle_episode cfg w path info tr'
    else if eq_str (dict_get info "type") "movie" then handle_movie cfg w path info tr'
    else (Ok tt, tr' ++ [ELog INFO "Unknown type (%s) for %s; skipping"
                           [dict_get info "type"; VStr p]]).
Proof.
  intros p tr' Hfile Hstat Hsize Hguess. subst p tr'.
  unfold process_file.
  erewrite run_bind; [|unfold is_file; by rewrite run_call, Hfile].
  simpl.
  erewrite run_bind; [|unfold stat_st_size; by rewrite run_call, Hstat].
  apply Z.ltb_ge in Hsize. rewrite Hsize.
  erewrite run_bind; [|unfold guessit_call; by rewrite run_call, Hguess].
  rewrite <- !app_assoc. simpl.
  destruct (eq_str _ "episode"); [done|].
  destruct (eq_str _ "movie"); [done|].
  unfold logging_info. by rewrite run_log, <- app_assoc.
Qed.

(** ** What a computation appends to the trace *)

Section emits.
Context {P : Event → Prop}.

Lemma emits_ret {A} (a : A) : emits P (ret a).
Proof. intros tr. exists []. by rewrite app_nil_r. Qed.

Lemma emits_lift {A} (r : result A) : emits P (lift r).
Proof. intros tr. exists []. by rewrite app_nil_r. Qed.

Lemma emits_call {A} (answer : list Event → result A) ev :
  P ev → emits P (call answer ev).
Proof. intros Hev tr. exists [ev]. split; [done|]. by constructor. Qed.

Lemma emits_log lvl fmt args : P (ELog lvl fmt args) → emits P (log lvl fmt args).
Proof. apply emits_call. Qed.

Lemma emits_bind {A B} (m : M A) (k : A → M B) :
  emits P m → (∀ a, emits P (k a)) → emits P (bind m k).
Proof.
  intros Hm Hk tr. unfold bind.
  destruct (Hm tr) as (evs & E & HP). destruct (m tr) as [[a|e] tr1]; simpl in E.
  - destruct (Hk a tr1) as (evs' & E' & HP'). exists (evs ++ evs').
    rewrite E', E, app_assoc. split; [done|]. by apply Forall_app.
  - by exists evs.
Qed.

Lemma emits_try_except {A} (m : M A) (h : exn → M A) :
  emits P m → (∀ e, emits P (h e)) → emits P (try_except m h).
Proof.
  intros Hm Hh tr. unfold try_except.
  destruct (Hm tr) as (evs & E & HP). destruct (m tr) as [[a|e] tr1]; simpl in E.
  - by exists evs.
  - destruct (Hh e tr1) as (evs' & E' & HP'). exists (evs ++ evs').
    rewrite E', E, app_assoc. split; [done|]. by apply Forall_app.
Qed.

Lemma emits_for_each {A} (l : list A) (body : A → M unit) :
  (∀ x, emits P (body x)) → emits P (for_each l body).
Proof.
  intros Hbody. induction l as [|x l IH]; simpl.
  - apply emits_ret.
  - apply emits_bind; [apply Hbody|]. by intros _.
Qed.

End emits.

Ltac emits_step :=
  lazymatch goal with
  | |- emits _ (bind _ _) => apply emits_bind; [|intros ?]
  | |- emits _ (try_except _ _) => apply emits_try_except; [|intros ?]
  | |- emits _ (ret _) => apply emits_ret
  | |- emits _ (lift _) => apply emits_lift
  | |- emits _ (log _ _ _) => apply emits_log; exact I
  | |- emits _ (call _ _) => apply emits_call; exact I
  | |- emits _ (if ?b then _ else _) => destruct b
  | |- emits _ (match ?x with _ => _ end) => destruct x
  end.

Ltac emits_run := cbv zeta; repeat (emits_step; cbv zeta).

Section emitted_by_the_program.
Variable cfg : Config.
Variable w : World.

Lemma tmdb_search_movie_emits title year :
  emits file_event (tmdb_search_movie cfg w title year).
Proof. unfold tmdb_search_movie, requests_get_call. emits_run. Qed.

Lemma tmdb_search_tv_emits title :
  emits file_event (tmdb_search_tv cfg w title).
Proof. unfold tmdb_search_tv, requests_get_call. emits_run. Qed.

Lemma handle_episode_emits path info :
  emits file_event (handle_episode cfg w path info).
Proof.
  unfold handle_episode, logging_info, mkdir, shutil_move. cbv zeta.
  destruct (_ || _); [emits_run|].
  apply emits_bind; [apply tmdb_search_tv_emits|intros ?]. emits_run.
Qed.

Lemma handle_movie_emits path info :
  emits file_event (handle_movie cfg w path info).
Proof.
  unfold handle_movie, logging_info, mkdir, shutil_move. cbv zeta.
  destruct (negb _); [emits_run|].
  apply emits_bind; [apply tmdb_search_movie_emits|intros ?]. emits_run.
Qed.

(** [process_file] begins with [is_file()] on its path and calls it
    nowhere else. *)
Lemma process_file_trace path tr :
  ∃ evs, (process_file cfg w path tr).2 = tr ++ EIsFile (PyPath.str path) :: evs
         ∧ Forall file_event evs.
Proof.
  unfold process_file, is_file, bind at 1. rewrite run_call.
  destruct (fs_is_file w tr (PyPath.str path)) as [b|e].
  2:{ exists []. done. }
  set (rest := if negb b then _ else _).
  assert (emits file_event rest) as Hrest.
  { subst rest. unfold stat_st_size, guessit_call, logging_info. emits_run.
    - apply handle_episode_emits.
    - apply handle_movie_emits. }
  destruct (Hrest (tr ++ [EIsFile (PyPath.str path)])) as (evs & E & HP).
  exists evs. rewrite E, <- app_assoc. done.
Qed.

(** The per-file boundary: whatever [process_file] does, the loop body
    returns normally. *)
Lemma sweep_file_boundary root name tr :
  let path := PyPath.parse root // name in
  sweep_file cfg w root name tr
  = match process_file cfg w path tr with
    | (Ok _, tr1) => (Ok tt, tr1)
    | (Raise e, tr1) =>
        (Ok tt, tr1 ++ [ELog ERROR "Error processing %s: %s"
                          [VStr (PyPath.str path); VStr (exn_text e)]])
    end.
Proof.
  intros path. unfold sweep_file, try_except. fold path.
  destruct (process_file cfg w path tr) as [[[]|e] tr1]; done.
Qed.

Lemma sweep_file_trace root name tr :
  ∃ evs, sweep_file cfg w root name tr
           = (Ok tt, tr ++ EIsFile (PyPath.str (PyPath.parse root // name)) :: evs)
         ∧ Forall file_event evs.
Proof.
  rewrite sweep_file_boundary. cbv zeta.
  destruct (process_file_trace (PyPath.parse root // name) tr) as (evs & E & HP).
  destruct (process_file _ _ _ _) as [[[]|e] tr1]; simpl in E; subst tr1.
  - by exists evs.
  - exists (evs ++ [ELog ERROR "Error processing %s: %s"
                      [VStr (PyPath.str (PyPath.parse root // name)); VStr (exn_text e)]]).
    rewrite <- app_assoc. split; [done|].
    apply Forall_app. split; [done|]. by repeat constructor.
Qed.

End emitted_by_the_program.

(** ** sweep_once *)

Lemma attempts_app evs1 evs2 : attempts (evs1 ++ evs2) = attempts evs1 ++ attempts evs2.
Proof. apply omap_app. Qed.

Lemma attempts_file_events evs : Forall file_event evs → attempts evs = [].
Proof.
  induction 1 as [|e evs He _ IH]; [done|].
  destruct e; simpl in *; done.
Qed.

Lemma sweeps_app evs1 evs2 : sweeps (evs1 ++ evs2) = sweeps evs1 ++ sweeps evs2.
Proof. apply omap_app. Qed.

Lemma sweeps_sweep_events evs : Forall sweep_event evs → sweeps evs = [].
Proof.
  induction 1 as [|e evs He _ IH]; [done|].
  destruct e; simpl in *; done.
Qed.

Lemma file_event_sweep_event e : file_event e → sweep_event e.
Proof. by destruct e. Qed.

Section sweep.
Variable cfg : Config.
Variable w : World.

(** The inner loop, over the files of one directory. *)
Lemma sweep_files_trace root (files : list string) tr :
  ∃ evs, for_each files (λ name, sweep_file cfg w root name) tr = (Ok tt, tr ++ evs)
         ∧ attempts evs = map (λ name, PyPath.str (PyPath.parse root // name)) files
         ∧ Forall sweep_event evs.
Proof.
  revert tr. induction files as [|name files IH]; intros tr; simpl.
  { exists []. by rewrite app_nil_r. }
  destruct (sweep_file_trace cfg w root name tr) as (evs1 & E1 & HP1).
  erewrite run_bind by exact E1.
  destruct (IH (tr ++ EIsFile (PyPath.str (PyPath.parse root // name)) :: evs1))
    as (evs2 & E2 & Hat & HP2).
  exists (EIsFile (PyPath.str (PyPath.parse root // name)) :: evs1 ++ evs2).
  rewrite E2, <- app_assoc. split; [done|]. split.
  - simpl. rewrite attempts_app, (attempts_file_events evs1), Hat by done. done.
  - constructor; [done|]. apply Forall_app. split; [|done].
    eapply Forall_impl; eauto using file_event_sweep_event.
Qed.

(** The outer loop, over the directories of the walk. *)
Lemma sweep_walk_trace (walk : list (string * list string)) tr :
  ∃ evs, for_each walk (λ '(root, files),
           for_each files (λ name, sweep_file cfg w root name)) tr
           = (Ok tt, tr ++ evs)
         ∧ attempts evs = map PyPath.str (walk_paths walk)
         ∧ Forall sweep_event evs.
Proof.
  revert tr. induction walk as [|[root files] walk IH]; intros tr; simpl.
  { exists []. by rewrite app_nil_r. }
  destruct (sweep_files_trace root files tr) as (evs1 & E1 & Hat1 & HP1).
  erewrite run_bind by exact E1.
  destruct (IH (tr ++ evs1)) as (evs2 & E2 & Hat2 & HP2).
  exists (evs1 ++ evs2). rewrite E2, <- app_assoc. split; [done|]. split.
  - unfold walk_paths in *. simpl.
    rewrite attempts_app, Hat1, Hat2, map_app, map_map. done.
  - by apply Forall_app.
Qed.

(** A sweep that finds its root: it returns normally, having begun the
    processing of each path of the walk once, in order. *)
#[local] Abbreviation dd := (PyPath.str (DOWNLOADS_DIR cfg)).

Lemma sweep_once_trace tr :
  let d := PyPath.str (DOWNLOADS_DIR cfg) in
  fs_exists w tr d = Ok true →
  ∃ evs, sweep_once cfg w tr = (Ok tt, tr ++ EExists d :: EWalk d :: evs)
         ∧ attempts evs
           = map PyPath.str (walk_paths (fs_walk w (tr ++ [EExists d]) d))
         ∧ Forall sweep_event evs.
Proof.
  intros d Hex. subst d. unfold sweep_once.
  erewrite run_bind; [|unfold exists_; by rewrite run_call, Hex].
  simpl. erewrite run_bind; [|unfold os_walk; by rewrite run_call].
  destruct (sweep_walk_trace (fs_walk w (tr ++ [EExists dd]) dd)
              ((tr ++ [EExists dd]) ++ [EWalk dd])) as (evs & E & Hat & HP).
  exists evs. rewrite E, <- !app_assoc. done.
Qed.

(** A sweep whose root is missing: a warning, and nothing else. *)
Lemma sweep_once_no_root tr :
  let d := PyPath.str (DOWNLOADS_DIR cfg) in
  fs_exists w tr d = Ok false →
  sweep_once cfg w tr
  = (Ok tt, tr ++ [EExists d;
                   ELog WARNING "Downloads dir %s does not exist" [VStr d]]).
Proof.
  intros d Hex. subst d. unfold sweep_once.
  erewrite run_bind; [|unfold exists_; by rewrite run_call, Hex].
  simpl. unfold logging_warning. rewrite run_log, <- app_assoc. done.
Qed.

(** Whatever happens, a sweep begins with [exists()] and then only walks
    and processes files. *)
Lemma sweep_once_shape tr :
  ∃ r evs, sweep_once cfg w tr = (r, tr ++ EExists dd :: evs)
           ∧ Forall sweep_event evs.
Proof.
  destruct (fs_exists w tr dd) as [[]|e] eqn:Hex.
  - destruct (sweep_once_trace tr Hex) as (evs & E & _ & HP).
    exists (Ok tt), (EWalk dd :: evs). rewrite E. split; [done|].
    by constructor.
  - rewrite sweep_once_no_root by done.
    exists (Ok tt), [ELog WARNING "Downloads dir %s does not exist" [VStr dd]].
    split; [done|]. by repeat constructor.
  - unfold sweep_once.
    erewrite run_bind_raise; [|unfold exists_; by rewrite run_call, Hex].
    by exists (Raise e), [].
Qed.

End sweep.

(** C7. In a sweep, the body of the loop turns every exception of
    [process_file] into one ERROR log record and returns normally; so the
    sweep returns normally and begins the processing of every enumerated
    path exactly once, in the order of the walk, whatever fails on the way. *)
Theorem sweep_once_attempts_every_file (cfg : Config) (w : World) (tr : list Event) :
  let d := PyPath.str (DOWNLOADS_DIR cfg) in
  fs_exists w tr d = Ok true →
  (∀ root name tr0,
     let path := PyPath.parse root // name in
     sweep_file cfg w root name tr0
     = match process_file cfg w path tr0 with
       | (Ok _, tr1) => (Ok tt, tr1)
       | (Raise e, tr1) =>
           (Ok tt, tr1 ++ [ELog ERROR "Error processing %s: %s"
                             [VStr (PyPath.str path); VStr (exn_text e)]])
       end)
  ∧ ∃ evs, sweep_once cfg w tr = (Ok tt, tr ++ EExists d :: EWalk d :: evs)
           ∧ attempts evs
             = map PyPath.str (walk_paths (fs_walk w (tr ++ [EExists d]) d)).
Proof.
  intros d Hex. split.
  - intros root name tr0. apply sweep_file_boundary.
  - destruct (sweep_once_trace cfg w tr Hex) as (evs & E & Hat & _). eauto.
Qed.

Lemma sweep_once_attempts_every_file_witness :
  ∃ evs, sweep_once (Demo.config "") Demo.world_stat_fails []
         = (Ok tt, [] ++ EExists "/downloads/complete" :: EWalk "/downloads/complete" :: evs)
         ∧ attempts evs
           = ["/downloads/complete/Breaking.Bad.S01E01.1080p.mkv";
              "/downloads/complete/notes.txt";
              "/downloads/complete/films/Inception.2010.mp4"].
Proof.
  exact (proj2 (sweep_once_attempts_every_file (Demo.config "")
                  Demo.world_stat_fails [] eq_refl)).
Defined.

(** A sweep whose second file cannot be inspected: the failure is logged
    and the third file is moved all the same. *)
Example sweep_once_continues_after_failure :
  let tr := (sweep_once (Demo.config "") Demo.world_stat_fails []).2 in
  attempts tr
  = ["/downloads/complete/Breaking.Bad.S01E01.1080p.mkv";
     "/downloads/complete/notes.txt";
     "/downloads/complete/films/Inception.2010.mp4"]
  ∧ moves tr
    = [("/downloads/complete/Breaking.Bad.S01E01.1080p.mkv",
        "/media/tv/Breaking Bad/Season 01/Breaking Bad - S01E01 [1080P].mkv");
       ("/downloads/complete/films/Inception.2010.mp4",
        "/media/movies/Inception (2010).mp4")]
  ∧ ELog ERROR "Error processing %s: %s"
      [VStr "/downloads/complete/notes.txt"; VStr "permission denied"] ∈ tr.
Proof.
  split; [by vm_compute|]. split; [by vm_compute|].
  vm_compute. do 10 apply list_elem_of_further. apply list_elem_of_here.
Qed.

(** ** The trigger surface *)

Lemma statuses_app evs1 evs2 : statuses (evs1 ++ evs2) = statuses evs1 ++ statuses evs2.
Proof. apply omap_app. Qed.

Lemma statuses_sweep_events evs : Forall sweep_event evs → statuses evs = [].
Proof.
  induction 1 as [|e evs He _ IH]; [done|].
  destruct e; simpl in *; done.
Qed.

Section trigger.
Variable cfg : Config.
Variable w : World.

#[local] Abbreviation dd := (PyPath.str (DOWNLOADS_DIR cfg)).
#[local] Abbreviation received :=
  (ELog INFO "HTTP trigger received: running sweep_once()" []).

(** A POST to [/scan-once] runs one sweep and replies 200 when the sweep
    returns, 500 when it raises. *)
Lemma do_POST_scan_once tr :
  ∃ evs code,
    do_POST cfg w "/scan-once" tr
    = (Ok tt, tr ++ received :: EExists dd :: evs ++ [ESendResponse code; EEndHeaders;
                                   EWrite (if code =? 200 then "OK" else "ERROR")])
    ∧ sweeps evs = [] ∧ statuses evs = []
    ∧ (code = 200 ∨ code = 500)
    ∧ (code = 200 ↔ (sweep_once cfg w (tr ++ [received])).1 = Ok tt).
Proof.
  unfold do_POST. simpl. unfold logging_info.
  erewrite run_bind by apply run_log.
  destruct (sweep_once_shape cfg w (tr ++ [received])) as (r & evs & E & HP).
  unfold try_except, bind at 1. rewrite E. destruct r as [[]|e]; simpl.
  - exists evs, 200. run_prims.
    rewrite sweeps_sweep_events, statuses_sweep_events by done. naive_solver.
  - exists (evs ++ [ELog ERROR "Error in sweep_once() from HTTP trigger: %s"
                      [VStr (exn_text e)]]), 500. run_prims.
    rewrite sweeps_app, statuses_app, sweeps_sweep_events, statuses_sweep_events by done.
    naive_solver.
Qed.

Lemma do_POST_other path tr :
  path ≠ "/scan-once" →
  do_POST cfg w path tr = (Ok tt, tr ++ [ESendResponse 404; EEndHeaders]).
Proof.
  intros Hne. unfold do_POST. apply String.eqb_neq in Hne. rewrite Hne.
  by run_prims.
Qed.

Lemma do_POST_sweeps path tr :
  ∃ evs, do_POST cfg w path tr = (Ok tt, tr ++ evs)
         ∧ sweeps evs = if decide (path = "/scan-once") then [dd] else [].
Proof.
  destruct (decide (path = "/scan-once")) as [->|Hne].
  - destruct (do_POST_scan_once tr) as (evs & code & E & Hsw & _).
    eexists. split; [exact E|]. simpl. rewrite sweeps_app, Hsw. done.
  - rewrite do_POST_other by done. eauto.
Qed.

(** The server runs one sweep per POST to [/scan-once], and none besides. *)
Lemma serve_forever_sweeps (posts : list string) tr :
  ∃ evs, serve_forever cfg w posts tr = (Ok tt, tr ++ evs)
         ∧ sweeps evs = map (λ _, dd) (filter (λ p, p = "/scan-once") posts).
Proof.
  unfold serve_forever. revert tr.
  induction posts as [|p posts IH]; intros tr; simpl.
  { exists []. by rewrite app_nil_r. }
  destruct (do_POST_sweeps p tr) as (evs1 & E1 & Hs1).
  erewrite run_bind; [|unfold try_except; by rewrite E1].
  destruct (IH (tr ++ evs1)) as (evs2 & E2 & Hs2).
  exists (evs1 ++ evs2). rewrite E2, <- app_assoc. split; [done|].
  rewrite sweeps_app, Hs1, Hs2. rewrite filter_cons. by destruct (decide _).
Qed.

End trigger.

(** C8, as the code has it.  When the source root does not exist,
    [sweep_once] logs a warning and returns normally without processing any
    file; on the HTTP trigger this is a successful sweep, answered with
    status 200 and body "OK". *)
Theorem missing_root_sweep_and_reply (cfg : Config) (w : World) (tr : list Event) :
  let d := PyPath.str (DOWNLOADS_DIR cfg) in
  let tr0 := tr ++ [ELog INFO "HTTP trigger received: running sweep_once()" []] in
  let sweep := [EExists d; ELog WARNING "Downloads dir %s does not exist" [VStr d]] in
  fs_exists w tr0 d = Ok false →
  sweep_once cfg w tr0 = (Ok tt, tr0 ++ sweep)
  ∧ attempts sweep = []
  ∧ do_POST cfg w "/scan-once" tr
    = (Ok tt, tr0 ++ sweep ++ [ESendResponse 200; EEndHeaders; EWrite "OK"]).
Proof.
  intros d tr0 sweep Hex. subst d tr0 sweep.
  pose proof (sweep_once_no_root cfg w _ Hex) as Hsweep. cbv zeta in Hsweep.
  split; [done|]. split; [done|].
  unfold do_POST. simpl. unfold logging_info.
  erewrite run_bind by apply run_log.
  unfold try_except, bind at 1. rewrite Hsweep.
  by run_prims.
Qed.

Lemma missing_root_sweep_and_reply_witness :
  do_POST (Demo.config "") (Demo.world Demo.offline false [] 0) "/scan-once" []
  = (Ok tt,
     [ELog INFO "HTTP trigger received: running sweep_once()" [];
      EExists "/downloads/complete";
      ELog WARNING "Downloads dir %s does not exist" [VStr "/downloads/complete"];
      ESendResponse 200; EEndHeaders; EWrite "OK"]).
Proof.
  exact (proj2 (proj2 (missing_root_sweep_and_reply (Demo.config "")
           (Demo.world Demo.offline false [] 0) [] eq_refl))).
Defined.

(** C8, as stated, fails: with the source root missing, the reply to
    POST /scan-once is 200 "OK", not 500 "ERROR". *)
Lemma missing_root_reply_is_not_an_error :
  fs_exists (Demo.world Demo.offline false [] 0)
    [ELog INFO "HTTP trigger received: running sweep_once()" []]
    (PyPath.str (DOWNLOADS_DIR (Demo.config ""))) = Ok false
  ∧ statuses (do_POST (Demo.config "") (Demo.world Demo.offline false [] 0)
                "/scan-once" []).2 = [200]
  ∧ ¬ EWrite "ERROR" ∈ (do_POST (Demo.config "") (Demo.world Demo.offline false [] 0)
                          "/scan-once" []).2.
Proof.
  split; [done|]. split; [by vm_compute|].
  intros Hin. vm_compute in Hin.
  repeat (apply elem_of_cons in Hin as [Hin|Hin]; [discriminate Hin|]).
  by apply elem_of_nil in Hin.
Qed.

(** C9, as the code has it.  In server mode [main] starts no timer: it logs
    its start and serves requests, so the sweeps it runs are exactly one
    per POST to [/scan-once]; with no request there is no sweep, and
    [SLEEP_SECONDS] has no effect on what [main] does. *)
Theorem main_server_mode_sweeps (cfg : Config) (w : World)
    (argv posts : list string) (tr : list Event) :
  "--once" ∉ argv →
  (∃ evs, main cfg w argv posts tr = (Ok tt, tr ++ evs)
          ∧ sweeps evs
            = map (λ _, PyPath.str (DOWNLOADS_DIR cfg))
                  (filter (λ p, p = "/scan-once") posts))
  ∧ (∀ n, main (with_sleep_seconds n cfg) w argv posts tr = main cfg w argv posts tr).
Proof.
  intros Honce. split; [|done].
  unfold main. rewrite bool_decide_eq_false_2 by done. cbv zeta.
  unfold logging_info, logging_warning.
  erewrite run_bind by apply run_log.
  set (start := ELog INFO "Organizer starting. run_once=%s downloads_dir=%s" _).
  set (warn := if negb _ then _ else _).
  assert (∃ evs0, warn (tr ++ [start]) = (Ok tt, (tr ++ [start]) ++ evs0)
                  ∧ sweeps evs0 = []) as (evs0 & E0 & Hs0).
  { subst warn. destruct (negb _).
    - rewrite run_log. eauto.
    - exists []. by rewrite app_nil_r. }
  erewrite run_bind by exact E0. erewrite run_bind by apply run_log.
  destruct (serve_forever_sweeps cfg w posts
              (((tr ++ [start]) ++ evs0) ++
               [ELog INFO "HTTP trigger server listening on 0.0.0.0:8000" []]))
    as (evs & E & Hs).
  eexists. rewrite E, <- !app_assoc. split; [done|].
  rewrite !sweeps_app, Hs0, Hs. done.
Qed.

Lemma main_server_mode_sweeps_witness :
  ∃ evs, main (Demo.config "k") (Demo.world Demo.offline true Demo.walk1 100000000)
              ["organize_media.py"] [] []
         = (Ok tt, [] ++ evs)
         ∧ sweeps evs = [].
Proof.
  refine (proj1 (main_server_mode_sweeps (Demo.config "k")
                   (Demo.world Demo.offline true Demo.walk1 100000000)
                   ["organize_media.py"] [] [] _)).
  by intros [?|?%elem_of_nil]%elem_of_cons.
Defined.

(** The whole run of the server with no request: two log records. *)
Example main_server_mode_idle :
  main (Demo.config "k") (Demo.world Demo.offline true Demo.walk1 100000000)
       ["organize_media.py"] [] []
  = (Ok tt,
     [ELog INFO "Organizer starting. run_once=%s downloads_dir=%s"
        [VBool false; VStr "/downloads/complete"];
      ELog INFO "HTTP trigger server listening on 0.0.0.0:8000" []]).
Proof. by vm_compute. Qed.

(** ** The resolvers *)

Lemma key_set (key : string) : key ≠ "" → negb (truthy (VStr key)) = false.
Proof. intros H. simpl. apply String.eqb_neq in H. by rewrite H. Qed.

Section resolvers.
Variable cfg : Config.
Variable w : World.

Lemma tmdb_search_movie_disabled title year tr :
  TMDB_API_KEY cfg = "" → tmdb_search_movie cfg w title year tr = (Ok None, tr).
Proof. intros H. unfold tmdb_search_movie. by rewrite H. Qed.

Lemma tmdb_search_tv_disabled title tr :
  TMDB_API_KEY cfg = "" → tmdb_search_tv cfg w title tr = (Ok None, tr).
Proof. intros H. unfold tmdb_search_tv. by rewrite H. Qed.

Lemma run_requests_get {B} url params (k : bool * result pyval → M B) tr :
  bind (requests_get_call w url params) k tr
  = match requests_get w tr url params with
    | RequestFailed msg => (Raise (ExternalError msg), tr ++ [EGet url params])
    | Response ok js => k (ok, js) (tr ++ [EGet url params])
    end.
Proof.
  unfold bind, requests_get_call, call.
  by destruct (requests_get w tr url params).
Qed.

Lemma tmdb_search_movie_outcomes title year tr :
  TMDB_API_KEY cfg ≠ "" →
  let tr' := tr ++ [EGet movie_url (movie_params cfg title year)] in
  match requests_get w tr movie_url (movie_params cfg title year) with
  | RequestFailed msg =>
      tmdb_search_movie cfg w title year tr = (Raise (ExternalError msg), tr')
  | Response false _ =>
      tmdb_search_movie cfg w title year tr = (Ok None, tr')
  | Response true (Raise e) =>
      tmdb_search_movie cfg w title year tr = (Raise e, tr')
  | Response true (Ok (VDict d)) =>
      truthy (dict_get d "results") = false →
      tmdb_search_movie cfg w title year tr = (Ok None, tr')
  | Response true (Ok _) =>
      tmdb_search_movie cfg w title year tr = (Raise (OperandError "get"), tr')
  end.
Proof.
  intros Hkey tr'. subst tr'. unfold tmdb_search_movie.
  rewrite key_set by done. cbv zeta.
  rewrite run_requests_get.
  destruct (requests_get w tr _ _) as [msg|[] [v|e]]; try done.
  destruct v; try done.
  intros Hres. unfold bind, lift, py_get, py_or. simpl. by rewrite Hres.
Qed.

Lemma tmdb_search_tv_outcomes title tr :
  TMDB_API_KEY cfg ≠ "" →
  let tr' := tr ++ [EGet tv_url (tv_params cfg title)] in
  match requests_get w tr tv_url (tv_params cfg title) with
  | RequestFailed msg =>
      tmdb_search_tv cfg w title tr = (Raise (ExternalError msg), tr')
  | Response false _ =>
      tmdb_search_tv cfg w title tr = (Ok None, tr')
  | Response true (Raise e) =>
      tmdb_search_tv cfg w title tr = (Raise e, tr')
  | Response true (Ok (VDict d)) =>
      truthy (dict_get d "results") = false →
      tmdb_search_tv cfg w title tr = (Ok None, tr')
  | Response true (Ok _) =>
      tmdb_search_tv cfg w title tr = (Raise (OperandError "get"), tr')
  end.
Proof.
  intros Hkey tr'. subst tr'. unfold tmdb_search_tv.
  rewrite key_set by done. cbv zeta.
  rewrite run_requests_get.
  destruct (requests_get w tr _ _) as [msg|[] [v|e]]; try done.
  destruct v; try done.
  intros Hres. unfold bind, lift, py_get, py_or. simpl. by rewrite Hres.
Qed.

End resolvers.

Lemma sweep_file_returns (cfg : Config) (w : World) root name tr :
  (sweep_file cfg w root name tr).1 = Ok tt.
Proof. destruct (sweep_file_trace cfg w root name tr) as (evs & -> & _). done. Qed.

(** C4, as the code has it.  Without an API key both resolvers return
    "no match" without any I/O.  With a key, a response that is not [ok]
    and a decoded dict whose ["results"] is missing or empty give
    "no match"; a failed request, a body that does not decode and a
    decoded value that is not a dict raise out of the resolver.  Whatever
    is raised while a file is processed stops at the loop body of the sweep,
    which returns normally. *)
Theorem resolver_failure_modes (cfg : Config) (w : World) (title year : pyval)
    (tr : list Event) :
  (TMDB_API_KEY cfg = "" →
     tmdb_search_movie cfg w title year tr = (Ok None, tr)
     ∧ tmdb_search_tv cfg w title tr = (Ok None, tr))
  ∧ (TMDB_API_KEY cfg ≠ "" →
     (let tr' := tr ++ [EGet movie_url (movie_params cfg title year)] in
      match requests_get w tr movie_url (movie_params cfg title year) with
      | RequestFailed msg =>
          tmdb_search_movie cfg w title year tr = (Raise (ExternalError msg), tr')
      | Response false _ =>
          tmdb_search_movie cfg w title year tr = (Ok None, tr')
      | Response true (Raise e) =>
          tmdb_search_movie cfg w title year tr = (Raise e, tr')
      | Response true (Ok (VDict d)) =>
          truthy (dict_get d "results") = false →
          tmdb_search_movie cfg w title year tr = (Ok None, tr')
      | Response true (Ok _) =>
          tmdb_search_movie cfg w title year tr = (Raise (OperandError "get"), tr')
      end)
     ∧ (let tr' := tr ++ [EGet tv_url (tv_params cfg title)] in
        match requests_get w tr tv_url (tv_params cfg title) with
        | RequestFailed msg =>
            tmdb_search_tv cfg w title tr = (Raise (ExternalError msg), tr')
        | Response false _ =>
            tmdb_search_tv cfg w title tr = (Ok None, tr')
        | Response true (Raise e) =>
            tmdb_search_tv cfg w title tr = (Raise e, tr')
        | Response true (Ok (VDict d)) =>
            truthy (dict_get d "results") = false →
            tmdb_search_tv cfg w title tr = (Ok None, tr')
        | Response true (Ok _) =>
            tmdb_search_tv cfg w title tr = (Raise (OperandError "get"), tr')
        end))
  ∧ (∀ root name tr0, (sweep_file cfg w root name tr0).1 = Ok tt).
Proof.
  split; [|split].
  - intros Hkey. split.
    + by apply tmdb_search_movie_disabled.
    + by apply tmdb_search_tv_disabled.
  - intros Hkey. split.
    + by apply tmdb_search_movie_outcomes.
    + by apply tmdb_search_tv_outcomes.
  - apply sweep_file_returns.
Qed.

(** C4, as stated, fails: with a key configured, a network error and a body
    that is not JSON do not give "no match"; the resolvers raise. *)
Lemma resolver_raises_on_network_error :
  (tmdb_search_movie (Demo.config "k") (Demo.world Demo.offline true [] 0)
     (VStr "Inception") (VInt 2010) []).1
  = Raise (ExternalError "connection refused")
  ∧ (tmdb_search_tv (Demo.config "k") (Demo.world Demo.offline true [] 0)
       (VStr "Breaking Bad") []).1
    = Raise (ExternalError "connection refused")
  ∧ (tmdb_search_movie (Demo.config "k")
       (Demo.world (Response true (Raise (ExternalError "Expecting value"))) true [] 0)
       (VStr "Inception") (VInt 2010) []).1
    = Raise (ExternalError "Expecting value")
  ∧ (tmdb_search_movie (Demo.config "k") (Demo.world Demo.offline true [] 0)
       (VStr "Inception") (VInt 2010) []).1
    ≠ Ok None.
Proof. by vm_compute. Qed.

Example resolver_no_match_cases :
  tmdb_search_movie (Demo.config "") (Demo.world Demo.offline true [] 0)
    (VStr "Inception") (VInt 2010) [] = (Ok None, [])
  ∧ (tmdb_search_movie (Demo.config "k")
       (Demo.world (Response false (Ok VNone)) true [] 0)
       (VStr "Inception") (VInt 2010) []).1 = Ok None
  ∧ (tmdb_search_tv (Demo.config "k")
       (Demo.world (Response true (Ok (VDict {["results" := VList []]}))) true [] 0)
       (VStr "Breaking Bad") []).1 = Ok None.
Proof. by vm_compute. Qed.

(** C5.  When the movie search succeeds with a first candidate whose
    release date is a string (or is missing, which counts as the empty
    string), the resolved year is the integer value of the first 4
    characters of that date when they are all digits; otherwise the year
    passed in by the caller when it is present (truthy); otherwise [None]. *)
Theorem tmdb_search_movie_year (cfg : Config) (w : World) (title year : pyval)
    (tr : list Event) (d best : gmap string pyval) (rest : list pyval)
    (date : string) :
  let url := movie_url in
  let params := movie_params cfg title year in
  TMDB_API_KEY cfg ≠ "" →
  requests_get w tr url params = Response true (Ok (VDict d)) →
  d !! "results" = Some (VList (VDict best :: rest)) →
  py_or (dict_get best "release_date") (VStr "") = VStr date →
  ∃ m, tmdb_search_movie cfg w title year tr = (Ok (Some m), tr ++ [EGet url params])
       ∧ m_title m = py_or (dict_get best "title") title
       ∧ m_year m = if PyStr.isdigit (PyStr.take 4 date)
                    then VInt (PyStr.int (PyStr.take 4 date))
                    else if truthy year then year else VNone.
Proof.
  intros url params Hkey Hget Hres Hdate. subst url params.
  unfold tmdb_search_movie. rewrite key_set by done. cbv zeta.
  rewrite run_requests_get, Hget. cbn [negb fst snd].
  rewrite run_lift. cbn [py_get]. rewrite run_lift.
  assert (dict_get d "results" = VList (VDict best :: rest)) as ->.
  { unfold dict_get. by rewrite Hres. }
  cbn [py_or truthy negb py_first]. rewrite run_lift.
  cbn [py_get]. rewrite run_lift, Hdate.
  cbn [py_slice4]. rewrite run_lift. cbn [py_isdigit]. rewrite run_lift.
  destruct (PyStr.isdigit (PyStr.take 4 date)) eqn:Hd.
  - cbn [py_int]. rewrite Hd, !run_lift. cbn [ret]. eauto.
  - destruct (truthy year); unfold bind at 1; cbn [ret]; rewrite run_lift; eauto.
Qed.

Lemma tmdb_search_movie_year_witness :
  ∃ m, tmdb_search_movie (Demo.config "k")
         (Demo.world (Response true (Ok (Demo.tmdb_body "2010-07-15"))) true [] 0)
         (VStr "inception") VNone []
       = (Ok (Some m),
          [] ++ [EGet movie_url (movie_params (Demo.config "k") (VStr "inception") VNone)])
       ∧ m_title m = VStr "Inception"
       ∧ m_year m = VInt 2010.
Proof.
  refine (tmdb_search_movie_year (Demo.config "k")
    (Demo.world (Response true (Ok (Demo.tmdb_body "2010-07-15"))) true [] 0)
    (VStr "inception") VNone []
    (Demo.tmdb_data "2010-07-15") (Demo.candidate "2010-07-15")
    [] "2010-07-15" _ _ _ _).
  - by vm_compute.
  - by vm_compute.
  - by vm_compute.
  - by vm_compute.
Defined.

Example tmdb_search_movie_year_fallbacks :
  let run date year :=
    (tmdb_search_movie (Demo.config "k")
       (Demo.world (Response true (Ok (Demo.tmdb_body date))) true [] 0)
       (VStr "inception") year []).1 in
  run "2010-07-15" (VInt 1999) = Ok (Some {| m_title := VStr "Inception"; m_year := VInt 2010 |})
  ∧ run "soon" (VInt 1999) = Ok (Some {| m_title := VStr "Inception"; m_year := VInt 1999 |})
  ∧ run "" VNone = Ok (Some {| m_title := VStr "Inception"; m_year := VNone |})
  ∧ run "201" VNone = Ok (Some {| m_title := VStr "Inception"; m_year := VInt 201 |}).
Proof. by vm_compute. Qed.

(** ** Strings, numerals and paths *)






Lemma split_slash_no_slash (s : string) :
  PyStr.no_slash s = true → PyStr.split_slash s = [s].
Proof.
  induction s as [|c s IH]; simpl; [done|].
  intros [Hc Hs]%andb_prop. apply negb_true_iff in Hc. rewrite Hc, IH by done.
  done.
Qed.


(** *** Decimal numerals *)









(** *** Joining a plain component to a path *)

Lemma parse_plain (s : string) : plain s → PyPath.parse s = MkPath "" [s].
Proof.
  intros (Hs & Hne & Hdot). unfold PyPath.parse, PyPath.parse_parts.
  rewrite split_slash_no_slash by done. f_equal.
  - destruct s as [|c s]; [done|]. simpl in Hs.
    apply andb_prop in Hs as [Hc _]. apply negb_true_iff in Hc.
    unfold PyPath.parse_root.
    destruct (Ascii.eqb_spec c "/") as [->|Hc']; [done|].
    destruct c as [[] [] [] [] [] [] [] []]; try done.
  - simpl. unfold PyPath.keep_part.
    apply String.eqb_neq in Hne, Hdot. by rewrite Hne, Hdot.
Qed.

Lemma div_plain (p : Path) (s : string) :
  plain s → p // s = MkPath (root p) (parts p ++ [s]).
Proof. intros Hs. unfold PyPath.div. by rewrite parse_plain. Qed.






(** A path that [sweep_once] builds is well formed. *)
Lemma no_slash_split_slash (s : string) :
  Forall (λ c, PyStr.no_slash c = true) (PyStr.split_slash s).
Proof.
  induction s as [|c s IH]; simpl; [by repeat constructor|].
  destruct (Ascii.eqb c "/") eqn:Hc; [by constructor|].
  destruct (PyStr.split_slash s) as [|x xs].
  { constructor; [simpl; by rewrite Hc|constructor]. }
  inversion IH; subst. constructor; [|done]. simpl. by rewrite Hc.
Qed.

Lemma wf_path_parse (s : string) : wf_path (PyPath.parse s).
Proof.
  unfold wf_path, PyPath.parse, PyPath.parse_parts. simpl.
  pose proof (no_slash_split_slash s) as H. rewrite Forall_forall in H |- *.
  intros x Hx%list_elem_of_In. apply List.filter_In in Hx as [Hx _].
  by apply H, list_elem_of_In.
Qed.

Lemma wf_path_div (p : Path) (s : string) : wf_path p → wf_path (p // s).
Proof.
  intros Hp. unfold PyPath.div. destruct (String.eqb _ _).
  - unfold wf_path. simpl. apply Forall_app. split; [done|]. apply wf_path_parse.
  - apply wf_path_parse.
Qed.

(** ** The destination namer *)



Lemma run_ret {A B} (a : A) (k : A → M B) tr : bind (ret a) k tr = k a tr.
Proof. done. Qed.



Section namer.
Variable cfg : Config.
Variable w : World.





End namer.



Example handle_episode_resolved :
  moves (handle_episode (Demo.config "k")
           (Demo.world (Response true (Ok (Demo.tmdb_body "2008-01-20"))) true
              Demo.walk1 100000000)
           Demo.episode_path
           (<["title" := VStr "breaking bad"]> (<["episode" := VInt 7]> Demo.info_episode))
           []).2
  = [("/downloads/complete/Breaking.Bad.S01E01.1080p.mkv",
      "/media/tv/Breaking Bad/Season 01/Breaking Bad - S01E07 [1080P].mkv")].
Proof. by vm_compute. Qed.




Example handle_movie_without_year :
  moves (handle_movie (Demo.config "")
           (Demo.world Demo.offline true Demo.walk1 100000000)
           Demo.movie_path Demo.info_movie_no_year []).2
  = [("/downloads/complete/films/Inception.2010.mp4", "/media/movies/Inception.mp4")].
Proof. by vm_compute. Qed.


(** * Further properties *)

(** ** What the pipeline can emit, layer by layer *)

Ltac emits_any :=
  cbv zeta;
  repeat (lazymatch goal with
          | |- emits _ (bind _ _) => apply emits_bind; [|intros ?]
          | |- emits _ (try_except _ _) => apply emits_try_except; [|intros ?]
          | |- emits _ (for_each _ _) => apply emits_for_each; intros ?
          | |- emits _ (ret _) => apply emits_ret
          | |- emits _ (lift _) => apply emits_lift
          | |- emits _ (log _ _ _) => apply emits_log; first [exact I | solve [auto]]
          | |- emits _ (call _ _) => apply emits_call; first [exact I | solve [auto]]
          | |- emits _ (if ?b then _ else _) => destruct b
          | |- emits _ (match ?x with _ => _ end) => destruct x
          end; cbv zeta).

Lemma emits_trace {A} (P : Event → Prop) (m : M A) tr :
  emits P m → ∃ evs, (m tr).2 = tr ++ evs ∧ Forall P evs.
Proof. intros H. apply H. Qed.

Section handlers_emit.
Variable cfg : Config.
Variable w : World.
Variable P : Event → Prop.
Hypothesis P_tv : ∀ title, emits P (tmdb_search_tv cfg w title).
Hypothesis P_movie : ∀ title year, emits P (tmdb_search_movie cfg w title year).
Hypothesis P_mkdir : ∀ p, P (EMkdir p).
Hypothesis P_move : ∀ s d, P (EMove s d).
Hypothesis P_log : ∀ l f a, P (ELog l f a).

Lemma handle_episode_emits_in path info : emits P (handle_episode cfg w path info).
Proof.
  unfold handle_episode, logging_info, mkdir, shutil_move. cbv zeta.
  destruct (_ || _); [emits_any|].
  apply emits_bind; [apply P_tv|intros ?]. emits_any.
Qed.

Lemma handle_movie_emits_in path info : emits P (handle_movie cfg w path info).
Proof.
  unfold handle_movie, logging_info, mkdir, shutil_move. cbv zeta.
  destruct (negb _); [emits_any|].
  apply emits_bind; [apply P_movie|intros ?]. emits_any.
Qed.

End handlers_emit.

Section pipeline_emits.
Variable cfg : Config.
Variable w : World.
Variable P : Event → Prop.
Hypothesis P_episode : ∀ path info, emits P (handle_episode cfg w path info).
Hypothesis P_movie : ∀ path info, emits P (handle_movie cfg w path info).
Hypothesis P_log : ∀ l f a, P (ELog l f a).
Hypothesis P_is_file : ∀ p, P (EIsFile p).
Hypothesis P_stat : ∀ p, P (EStat p).
Hypothesis P_guessit : ∀ n, P (EGuessit n).
Hypothesis P_exists : ∀ p, P (EExists p).
Hypothesis P_walk : ∀ p, P (EWalk p).

Lemma process_file_emits_in path : emits P (process_file cfg w path).
Proof.
  unfold process_file, is_file, stat_st_size, guessit_call, logging_info.
  emits_any; auto.
Qed.

Lemma sweep_file_emits_in root name : emits P (sweep_file cfg w root name).
Proof.
  unfold sweep_file, logging_exception. cbv zeta.
  apply emits_try_except; [apply process_file_emits_in|intros ?]. emits_any.
Qed.

Lemma sweep_once_emits_in : emits P (sweep_once cfg w).
Proof.
  unfold sweep_once, exists_, os_walk, logging_warning.
  apply emits_bind; [emits_any|intros present].
  destruct (negb present); [emits_any|].
  apply emits_bind; [emits_any|intros walk].
  apply emits_for_each. intros [root files].
  apply emits_for_each. intros name. apply sweep_file_emits_in.
Qed.

Hypothesis P_send : ∀ c, P (ESendResponse c).
Hypothesis P_end : P EEndHeaders.
Hypothesis P_write : ∀ b, P (EWrite b).

Lemma do_POST_emits_in path : emits P (do_POST cfg w path).
Proof.
  unfold do_POST, logging_info, logging_exception, send_response,
    end_headers, wfile_write.
  destruct (String.eqb _ _); [|emits_any].
  apply emits_bind; [emits_any|intros _].
  apply emits_try_except; [|intros ?; emits_any].
  apply emits_bind; [apply sweep_once_emits_in|intros _]. emits_any.
Qed.

Lemma main_emits_in argv posts : emits P (main cfg w argv posts).
Proof.
  unfold main, serve_forever, logging_info, logging_warning. cbv zeta.
  apply emits_bind; [emits_any|intros _].
  apply emits_bind; [emits_any|intros _].
  destruct (bool_decide _); [apply sweep_once_emits_in|].
  apply emits_bind; [emits_any|intros _].
  apply emits_for_each. intros p.
  apply emits_try_except; [apply do_POST_emits_in|intros ?; emits_any].
Qed.

End pipeline_emits.

Lemma tmdb_search_tv_emits_in cfg w (P : Event → Prop) title :
  (∀ u p, P (EGet u p)) → emits P (tmdb_search_tv cfg w title).
Proof. intros HP. unfold tmdb_search_tv, requests_get_call. emits_any. Qed.

Lemma tmdb_search_movie_emits_in cfg w (P : Event → Prop) title year :
  (∀ u p, P (EGet u p)) → emits P (tmdb_search_movie cfg w title year).
Proof. intros HP. unfold tmdb_search_movie, requests_get_call. emits_any. Qed.

Lemma handle_episode_handler_events cfg w path info :
  emits handler_event (handle_episode cfg w path info).
Proof.
  apply handle_episode_emits_in; try done.
  intros title. by apply tmdb_search_tv_emits_in.
Qed.

Lemma handle_movie_handler_events cfg w path info :
  emits handler_event (handle_movie cfg w path info).
Proof.
  apply handle_movie_emits_in; try done.
  intros title year. by apply tmdb_search_movie_emits_in.
Qed.

Lemma parser_calls_app evs1 evs2 :
  parser_calls (evs1 ++ evs2) = parser_calls evs1 ++ parser_calls evs2.
Proof. apply omap_app. Qed.

Lemma parser_calls_handler_events evs : Forall handler_event evs → parser_calls evs = [].
Proof.
  induction 1 as [|e evs He _ IH]; [done|].
  destruct e; simpl in *; done.
Qed.

Lemma moves_app evs1 evs2 : moves (evs1 ++ evs2) = moves evs1 ++ moves evs2.
Proof. apply omap_app. Qed.

Lemma name_div_plain (p : Path) (s : string) : plain s → PyPath.name (p // s) = s.
Proof.
  intros Hs. rewrite div_plain by done. unfold PyPath.name. simpl.
  apply List.last_last.
Qed.

(** ** Files that are left where they are *)

(** X1. [handle_episode] on an info whose title is missing or empty, or
    whose season or episode is missing, logs that it skips the file and does
    nothing else: no lookup, no directory, no move. *)
Theorem handle_episode_skips (cfg : Config) (w : World) (path : Path)
    (info : gmap string pyval) (tr : list Event) :
  truthy (dict_get info "title") = false
  ∨ dict_get info "season" = VNone
  ∨ dict_get info "episode" = VNone →
  handle_episode cfg w path info tr
  = (Ok tt, tr ++ [ELog INFO "Skipping episode (missing title/season/episode): %s"
                     [VStr (PyPath.str path)]]).
Proof.
  intros Hskip. unfold handle_episode. cbv zeta.
  assert (negb (truthy (dict_get info "title"))
          || is_none (dict_get info "season")
          || is_none (dict_get info "episode") = true) as ->; [|done].
  destruct Hskip as [->|[->| ->]]; [done|..].
  - by rewrite orb_true_r.
  - by rewrite orb_true_r.
Qed.

Lemma handle_episode_skips_witness :
  handle_episode (Demo.config "k") (Scenes.world Demo.offline (Ok true))
    Demo.episode_path Scenes.info_season_pack []
  = (Ok tt, [] ++ [ELog INFO "Skipping episode (missing title/season/episode): %s"
                     [VStr "/downloads/complete/Breaking.Bad.S01E01.1080p.mkv"]]).
Proof.
  refine (handle_episode_skips (Demo.config "k") (Scenes.world Demo.offline (Ok true))
            Demo.episode_path Scenes.info_season_pack [] _).
  right. right. by vm_compute.
Defined.

(** X2. [handle_movie] on an info whose title is missing or empty logs
    that it skips the file and does nothing else: no lookup, no directory,
    no move. *)
Theorem handle_movie_skips (cfg : Config) (w : World) (path : Path)
    (info : gmap string pyval) (tr : list Event) :
  truthy (dict_get info "title") = false →
  handle_movie cfg w path info tr
  = (Ok tt, tr ++ [ELog INFO "Skipping movie (missing title): %s"
                     [VStr (PyPath.str path)]]).
Proof. intros Hskip. unfold handle_movie. cbv zeta. by rewrite Hskip. Qed.

Lemma handle_movie_skips_witness :
  handle_movie (Demo.config "k") (Scenes.world Demo.offline (Ok true))
    Demo.movie_path Scenes.info_untitled []
  = (Ok tt, [] ++ [ELog INFO "Skipping movie (missing title): %s"
                     [VStr "/downloads/complete/films/Inception.2010.mp4"]]).
Proof.
  refine (handle_movie_skips (Demo.config "k") (Scenes.world Demo.offline (Ok true))
            Demo.movie_path Scenes.info_untitled [] _).
  by vm_compute.
Defined.

(** X3. A large regular file whose parsed kind is neither "episode" nor
    "movie" (or is missing) is logged as unknown and left alone: after the
    parser call there is one log record, no lookup, no directory, no move. *)
Theorem process_file_unknown_kind (cfg : Config) (w : World) (path : Path)
    (tr : list Event) (size : Z) (info : gmap string pyval) :
  let p := PyPath.str path in
  fs_is_file w tr p = Ok true →
  fs_stat_size w (tr ++ [EIsFile p]) p = Ok size →
  MIN_SIZE_BYTES ≤ size →
  guessit w (PyPath.name path) = Ok info →
  dict_get info "type" ≠ VStr "episode" →
  dict_get info "type" ≠ VStr "movie" →
  process_file cfg w path tr
  = (Ok tt, tr ++ [EIsFile p; EStat p; EGuessit (PyPath.name path);
                   ELog INFO "Unknown type (%s) for %s; skipping"
                     [dict_get info "type"; VStr p]]).
Proof.
  intros p Hfile Hstat Hsize Hguess Hep Hmv. subst p.
  rewrite (process_file_dispatch cfg w path tr size info) by done.
  assert (∀ s, dict_get info "type" ≠ VStr s → eq_str (dict_get info "type") s = false)
    as Hne.
  { intros s Hs. destruct (dict_get info "type") as [| | |t| |]; try done.
    simpl. apply String.eqb_neq. congruence. }
  rewrite !Hne by done. by rewrite <- app_assoc.
Qed.

Lemma process_file_unknown_kind_witness :
  process_file (Demo.config "k") (Scenes.world Demo.offline (Ok true))
    Scenes.notes_path []
  = (Ok tt,
     [] ++ [EIsFile "/downloads/complete/notes.txt";
            EStat "/downloads/complete/notes.txt"; EGuessit "notes.txt";
            ELog INFO "Unknown type (%s) for %s; skipping"
              [VStr "subtitle"; VStr "/downloads/complete/notes.txt"]]).
Proof.
  refine (process_file_unknown_kind (Demo.config "k")
            (Scenes.world Demo.offline (Ok true)) Scenes.notes_path []
            100000000 Scenes.info_other _ _ _ _ _ _).
  - done.
  - done.
  - by vm_compute.
  - by vm_compute.
  - by vm_compute.
  - by vm_compute.
Defined.

(** X4. For a file [name] listed under [root], past both guards the
    parser is called exactly once, and with the bare file name: the
    directory part of the path never reaches it. *)
Theorem parser_gets_file_name (cfg : Config) (w : World) (root name : string)
    (tr : list Event) (size : Z) :
  let path := PyPath.parse root // name in
  let p := PyPath.str path in
  plain name →
  fs_is_file w tr p = Ok true →
  fs_stat_size w (tr ++ [EIsFile p]) p = Ok size →
  MIN_SIZE_BYTES ≤ size →
  ∃ evs, (process_file cfg w path tr).2 = tr ++ evs ∧ parser_calls evs = [name].
Proof.
  intros path p Hplain Hfile Hstat Hsize. subst p.
  assert (PyPath.name path = name) as Hname by (by apply name_div_plain).
  destruct (guessit w name) as [info|e] eqn:Hguess.
  - rewrite (process_file_dispatch cfg w path tr size info) by (by rewrite ?Hname).
    rewrite Hname.
    set (tr' := tr ++ _).
    assert (∃ evs, ((if eq_str (dict_get info "type") "episode"
                     then handle_episode cfg w path info tr'
                     else if eq_str (dict_get info "type") "movie"
                          then handle_movie cfg w path info tr'
                          else (Ok tt, tr' ++ [ELog INFO "Unknown type (%s) for %s; skipping"
                                                 [dict_get info "type"; VStr (PyPath.str path)]])).2
                   = tr' ++ evs) ∧ Forall handler_event evs) as (evs & E & HP).
    { destruct (eq_str _ "episode"); [apply handle_episode_handler_events|].
      destruct (eq_str _ "movie"); [apply handle_movie_handler_events|].
      eexists. split; [done|]. by repeat constructor. }
    eexists. rewrite E. subst tr'. rewrite <- app_assoc. split; [done|].
    rewrite parser_calls_app, (parser_calls_handler_events evs) by done. done.
  - unfold process_file.
    erewrite run_bind; [|unfold is_file; by rewrite run_call, Hfile].
    simpl.
    erewrite run_bind; [|unfold stat_st_size; by rewrite run_call, Hstat].
    apply Z.ltb_ge in Hsize. rewrite Hsize.
    erewrite run_bind_raise; [|unfold guessit_call; by rewrite run_call, Hname, Hguess].
    eexists. rewrite <- !app_assoc. split; [done|]. done.
Qed.

Lemma parser_gets_file_name_witness :
  ∃ evs, (process_file (Demo.config "") (Scenes.world Demo.offline (Ok true))
            (PyPath.parse "/downloads/complete/films" // "Inception.2010.mp4") []).2
         = [] ++ evs
         ∧ parser_calls evs = ["Inception.2010.mp4"].
Proof.
  refine (parser_gets_file_name (Demo.config "") (Scenes.world Demo.offline (Ok true))
            "/downloads/complete/films" "Inception.2010.mp4" [] 100000000 _ _ _ _).
  - by repeat split.
  - done.
  - done.
  - by vm_compute.
Defined.

(** ** What is moved, and what is requested *)

Lemma moves_no_move_events evs : Forall no_move_event evs → moves evs = [].
Proof.
  induction 1 as [|e evs He _ IH]; [done|].
  destruct e; simpl in *; done.
Qed.

Lemma moves_own_quiet {A} src (m : M A) : emits no_move_event m → moves_own src m.
Proof.
  intros Hm tr. destruct (Hm tr) as (evs & E & HP). exists evs.
  split; [done|]. left. by apply moves_no_move_events.
Qed.

Lemma moves_own_bind {A B} src (m : M A) (k : A → M B) :
  emits no_move_event m → (∀ a, moves_own src (k a)) → moves_own src (bind m k).
Proof.
  intros Hm Hk tr. unfold bind.
  destruct (Hm tr) as (evs & E & HP). destruct (m tr) as [[a|e] tr1]; simpl in E.
  - destruct (Hk a tr1) as (evs' & E' & Hmv). exists (evs ++ evs').
    rewrite E', E, app_assoc. split; [done|].
    by rewrite moves_app, (moves_no_move_events evs).
  - exists evs. split; [done|]. left. by apply moves_no_move_events.
Qed.

Lemma moves_own_try_except {A} src (m : M A) (h : exn → M A) :
  moves_own src m → (∀ e, emits no_move_event (h e)) → moves_own src (try_except m h).
Proof.
  intros Hm Hh tr. unfold try_except.
  destruct (Hm tr) as (evs & E & Hmv). destruct (m tr) as [[a|e] tr1]; simpl in E.
  - by exists evs.
  - destruct (Hh e tr1) as (evs' & E' & HP). exists (evs ++ evs').
    rewrite E', E, app_assoc. split; [done|].
    by rewrite moves_app, (moves_no_move_events evs'), app_nil_r.
Qed.

Lemma moves_own_shutil_move w src dst : moves_own src (shutil_move w src dst).
Proof. intros tr. exists [EMove src dst]. split; [done|]. right. by exists dst. Qed.

Ltac moves_own_steps :=
  cbv zeta;
  repeat (lazymatch goal with
          | |- moves_own _ (bind _ _) => apply moves_own_bind; [emits_any|intros ?]
          | |- moves_own _ (shutil_move _ _ _) => apply moves_own_shutil_move
          | |- moves_own _ (if ?b then _ else _) => destruct b
          | |- moves_own _ (match ?x with _ => _ end) => destruct x
          | |- moves_own _ (log _ _ _) => apply moves_own_quiet; emits_any
          | |- moves_own _ (ret _) => apply moves_own_quiet; emits_any
          end; cbv zeta).

Section moved.
Variable cfg : Config.
Variable w : World.

Lemma handle_episode_moves_own path info :
  moves_own (PyPath.str path) (handle_episode cfg w path info).
Proof.
  unfold handle_episode, logging_info, mkdir. cbv zeta.
  destruct (_ || _); [moves_own_steps|].
  apply moves_own_bind; [by apply tmdb_search_tv_emits_in|intros ?].
  moves_own_steps.
Qed.

Lemma handle_movie_moves_own path info :
  moves_own (PyPath.str path) (handle_movie cfg w path info).
Proof.
  unfold handle_movie, logging_info, mkdir. cbv zeta.
  destruct (negb _); [moves_own_steps|].
  apply moves_own_bind; [by apply tmdb_search_movie_emits_in|intros ?].
  moves_own_steps.
Qed.

Lemma process_file_moves_own path :
  moves_own (PyPath.str path) (process_file cfg w path).
Proof.
  unfold process_file, is_file, stat_st_size, guessit_call, logging_info.
  moves_own_steps.
  - apply handle_episode_moves_own.
  - apply handle_movie_moves_own.
Qed.

Lemma sweep_file_moves_own root name :
  moves_own (PyPath.str (PyPath.parse root // name)) (sweep_file cfg w root name).
Proof.
  unfold sweep_file, logging_exception. cbv zeta.
  apply moves_own_try_except; [apply process_file_moves_own|intros ?; emits_any].
Qed.

Lemma sweep_files_moves root (files : list string) tr :
  ∃ evs, for_each files (λ name, sweep_file cfg w root name) tr = (Ok tt, tr ++ evs)
         ∧ sublist (map fst (moves evs))
                   (map (λ name, PyPath.str (PyPath.parse root // name)) files).
Proof.
  revert tr. induction files as [|name files IH]; intros tr; simpl.
  { exists []. by rewrite app_nil_r. }
  destruct (sweep_file_trace cfg w root name tr) as (evs0 & E1 & _).
  destruct (sweep_file_moves_own root name tr) as (evs1 & E1' & Hmv).
  rewrite E1 in E1'. simpl in E1'. apply app_inv_head in E1'.
  erewrite run_bind by exact E1. rewrite E1'.
  destruct (IH (tr ++ evs1)) as (evs2 & E2 & Hsub).
  exists (evs1 ++ evs2). rewrite E2, <- app_assoc. split; [done|].
  rewrite moves_app, map_app. destruct Hmv as [->|[dst ->]]; simpl.
  - by apply sublist_cons.
  - by apply sublist_skip.
Qed.

Lemma sweep_walk_moves (walk : list (string * list string)) tr :
  ∃ evs, for_each walk (λ '(root, files),
           for_each files (λ name, sweep_file cfg w root name)) tr
           = (Ok tt, tr ++ evs)
         ∧ sublist (map fst (moves evs)) (map PyPath.str (walk_paths walk)).
Proof.
  revert tr. induction walk as [|[root files] walk IH]; intros tr; simpl.
  { exists []. by rewrite app_nil_r. }
  destruct (sweep_files_moves root files tr) as (evs1 & E1 & Hs1).
  erewrite run_bind by exact E1.
  destruct (IH (tr ++ evs1)) as (evs2 & E2 & Hs2).
  exists (evs1 ++ evs2). rewrite E2, <- app_assoc. split; [done|].
  unfold walk_paths in *. simpl.
  rewrite moves_app, !map_app, map_map. by apply sublist_app.
Qed.

End moved.

(** X5. Whatever the world answers, [process_file] issues at most one
    move, and the file it moves is the path it was given. *)
Theorem process_file_moves_its_own_path (cfg : Config) (w : World) (path : Path)
    (tr : list Event) :
  ∃ evs, (process_file cfg w path tr).2 = tr ++ evs
         ∧ (moves evs = [] ∨ ∃ dst, moves evs = [(PyPath.str path, dst)]).
Proof. apply process_file_moves_own. Qed.

(** X6. Whatever the world answers, the files a sweep moves are among the
    paths of its walk, in walk order, each at most once for each time it is
    listed: a sweep never moves a file it did not enumerate. *)
Theorem sweep_once_moves_enumerated_files (cfg : Config) (w : World)
    (tr : list Event) :
  let d := PyPath.str (DOWNLOADS_DIR cfg) in
  ∃ evs, (sweep_once cfg w tr).2 = tr ++ evs
         ∧ sublist (map fst (moves evs))
                   (map PyPath.str (walk_paths (fs_walk w (tr ++ [EExists d]) d))).
Proof.
  intros d. subst d. unfold sweep_once, bind at 1, exists_. rewrite run_call.
  destruct (fs_exists w tr _) as [[]|e]; cbn [negb].
  - unfold bind at 1, os_walk. rewrite run_call.
    destruct (sweep_walk_moves cfg w
                (fs_walk w (tr ++ [EExists (PyPath.str (DOWNLOADS_DIR cfg))])
                   (PyPath.str (DOWNLOADS_DIR cfg)))
                ((tr ++ [EExists (PyPath.str (DOWNLOADS_DIR cfg))])
                   ++ [EWalk (PyPath.str (DOWNLOADS_DIR cfg))]))
      as (evs & E & Hsub).
    rewrite E. eexists. rewrite <- !app_assoc. split; [done|]. done.
  - eexists. unfold logging_warning. rewrite run_log, <- app_assoc.
    split; [done|]. apply sublist_nil_l.
  - exists [EExists (PyPath.str (DOWNLOADS_DIR cfg))]. split; [done|].
    apply sublist_nil_l.
Qed.

Lemma requests_made_no_get_events evs : Forall no_get_event evs → requests_made evs = [].
Proof.
  induction 1 as [|e evs He _ IH]; [done|].
  destruct e; simpl in *; done.
Qed.

(** X7. Without an API key the whole program, in either mode and whatever
    requests arrive, never issues an HTTP request. *)
Theorem no_key_no_request (cfg : Config) (w : World) (argv posts : list string)
    (tr : list Event) :
  TMDB_API_KEY cfg = "" →
  ∃ evs, (main cfg w argv posts tr).2 = tr ++ evs ∧ requests_made evs = [].
Proof.
  intros Hkey.
  assert (emits no_get_event (main cfg w argv posts)) as Hmain.
  { apply main_emits_in; try done.
    - intros path info. apply handle_episode_emits_in; try done.
      intros title. unfold tmdb_search_tv. rewrite Hkey. apply emits_ret.
    - intros path info. apply handle_movie_emits_in; try done.
      intros title year. unfold tmdb_search_movie. rewrite Hkey. apply emits_ret. }
  destruct (Hmain tr) as (evs & E & HP). exists evs. split; [done|].
  by apply requests_made_no_get_events.
Qed.

Lemma no_key_no_request_witness :
  ∃ evs, (main (Demo.config "") (Scenes.world Demo.offline (Ok true))
            ["organize_media.py"; "--once"] [] []).2 = [] ++ evs
         ∧ requests_made evs = [].
Proof.
  exact (no_key_no_request (Demo.config "") (Scenes.world Demo.offline (Ok true))
           ["organize_media.py"; "--once"] [] [] eq_refl).
Defined.

Lemma no_change_events evs :
  Forall no_change_event evs → moves evs = [] ∧ mkdirs evs = [].
Proof.
  induction 1 as [|e evs He _ [IH1 IH2]]; [done|].
  destruct e; simpl in *; done.
Qed.

(** X8. With an API key set, when every request to the service fails, a
    sweep changes nothing: no directory is created and no file is moved,
    whatever the files are. *)
Theorem unreachable_service_changes_nothing (cfg : Config) (w : World)
    (tr : list Event) :
  TMDB_API_KEY cfg ≠ "" →
  (∀ tr url params, ∃ msg, requests_get w tr url params = RequestFailed msg) →
  ∃ evs, (sweep_once cfg w tr).2 = tr ++ evs ∧ moves evs = [] ∧ mkdirs evs = [].
Proof.
  intros Hkey Hdown.
  assert (emits no_change_event (sweep_once cfg w)) as Hsweep.
  { apply sweep_once_emits_in; try done.
    - intros path info tr0. unfold handle_episode. cbv zeta.
      destruct (_ || _).
      { eexists. unfold logging_info. rewrite run_log. split; [done|].
        by repeat constructor. }
      destruct (Hdown tr0 tv_url (tv_params cfg (dict_get info "title")))
        as [msg Hmsg].
      pose proof (tmdb_search_tv_outcomes cfg w (dict_get info "title") tr0 Hkey)
        as Hout. cbv zeta in Hout. rewrite Hmsg in Hout.
      erewrite run_bind_raise by exact Hout.
      eexists. split; [done|]. by repeat constructor.
    - intros path info tr0. unfold handle_movie. cbv zeta.
      destruct (negb _).
      { eexists. unfold logging_info. rewrite run_log. split; [done|].
        by repeat constructor. }
      destruct (Hdown tr0 movie_url
                  (movie_params cfg (dict_get info "title") (dict_get info "year")))
        as [msg Hmsg].
      pose proof (tmdb_search_movie_outcomes cfg w (dict_get info "title")
                    (dict_get info "year") tr0 Hkey) as Hout.
      cbv zeta in Hout. rewrite Hmsg in Hout.
      erewrite run_bind_raise by exact Hout.
      eexists. split; [done|]. by repeat constructor. }
  destruct (Hsweep tr) as (evs & E & HP). exists evs. split; [done|].
  by apply no_change_events.
Qed.

Lemma unreachable_service_changes_nothing_witness :
  ∃ evs, (sweep_once (Demo.config "k") (Scenes.world Demo.offline (Ok true)) []).2
         = [] ++ evs
         ∧ moves evs = [] ∧ mkdirs evs = [].
Proof.
  refine (unreachable_service_changes_nothing (Demo.config "k")
            (Scenes.world Demo.offline (Ok true)) [] _ _).
  - done.
  - intros. by exists "connection refused".
Defined.

(** ** Replies of the trigger, and the two modes of [main] *)






Example do_POST_root_unreadable :
  let tr := (do_POST (Demo.config "")
               (Scenes.world Demo.offline (Raise (ExternalError "permission denied")))
               "/scan-once" []).2 in
  statuses tr = [500] ∧ bodies tr = ["ERROR"] ∧ attempts tr = [].
Proof. by vm_compute. Qed.


Example serve_forever_three_requests :
  statuses (serve_forever (Demo.config "") (Scenes.world Demo.offline (Ok false))
              ["/scan-once"; "/"; "/scan-once/"] []).2
  = [200; 404; 404].
Proof. by vm_compute. Qed.

(** X11. With [--once] in [sys.argv], [main] runs exactly one sweep and
    then returns: it starts no server, so it answers no request, whatever
    requests would arrive. *)
Theorem main_once_runs_one_sweep (cfg : Config) (w : World)
    (argv posts : list string) (tr : list Event) :
  "--once" ∈ argv →
  main cfg w argv posts tr = main cfg w argv [] tr
  ∧ ∃ evs, (main cfg w argv posts tr).2 = tr ++ evs
           ∧ sweeps evs = [PyPath.str (DOWNLOADS_DIR cfg)]
           ∧ statuses evs = [].
Proof.
  intros Honce. unfold main. rewrite bool_decide_eq_true_2 by done. cbv zeta.
  split; [done|].
  unfold logging_info, logging_warning.
  erewrite run_bind by apply run_log.
  set (start := ELog INFO "Organizer starting. run_once=%s downloads_dir=%s" _).
  set (warn := if negb _ then _ else _).
  assert (∃ evs0, warn (tr ++ [start]) = (Ok tt, (tr ++ [start]) ++ evs0)
                  ∧ sweeps evs0 = [] ∧ statuses evs0 = []) as (evs0 & E0 & Hs0 & Hc0).
  { subst warn. destruct (negb _).
    - rewrite run_log. eauto.
    - exists []. by rewrite app_nil_r. }
  erewrite run_bind by exact E0.
  destruct (sweep_once_shape cfg w ((tr ++ [start]) ++ evs0)) as (r & evs & E & HP).
  rewrite E. eexists. rewrite <- !app_assoc. split; [done|].
  simpl. rewrite !sweeps_app, !statuses_app, Hs0, Hc0. simpl.
  rewrite sweeps_sweep_events, statuses_sweep_events by done. done.
Qed.

Lemma main_once_runs_one_sweep_witness :
  main (Demo.config "") (Scenes.world Demo.offline (Ok true))
       ["organize_media.py"; "--once"] ["/scan-once"] []
  = main (Demo.config "") (Scenes.world Demo.offline (Ok true))
         ["organize_media.py"; "--once"] [] []
  ∧ ∃ evs, (main (Demo.config "") (Scenes.world Demo.offline (Ok true))
              ["organize_media.py"; "--once"] ["/scan-once"] []).2 = [] ++ evs
           ∧ sweeps evs = ["/downloads/complete"]
           ∧ statuses evs = [].
Proof.
  refine (main_once_runs_one_sweep (Demo.config "") (Scenes.world Demo.offline (Ok true))
            ["organize_media.py"; "--once"] ["/scan-once"] [] _).
  apply list_elem_of_further, list_elem_of_here.
Defined.

(** ** The resolvers, further *)

Lemma pure_trace {A} (m : M A) tr : emits (λ _, False) m → (m tr).2 = tr.
Proof.
  intros Hm. destruct (Hm tr) as (evs & -> & HP).
  destruct HP as [|e evs []]. by rewrite app_nil_r.
Qed.

(** X12. With an API key, [tmdb_search_movie] issues exactly one request,
    whatever comes back: a GET of [<TMDB_BASE>/search/movie] whose
    parameters are the key, the title as the query and, only when the
    caller's year is truthy, that year. *)
Theorem tmdb_search_movie_request (cfg : Config) (w : World) (title year : pyval)
    (tr : list Event) :
  TMDB_API_KEY cfg ≠ "" →
  let params := movie_params cfg title year in
  (tmdb_search_movie cfg w title year tr).2
  = tr ++ [EGet "https://api.themoviedb.org/3/search/movie" params]
  ∧ params !! "api_key" = Some (VStr (TMDB_API_KEY cfg))
  ∧ params !! "query" = Some title
  ∧ params !! "year" = (if truthy year then Some year else None)
  ∧ dom params ⊆ {["api_key"; "query"; "year"]}.
Proof.
  intros Hkey params. subst params. split.
  - unfold tmdb_search_movie. rewrite key_set by done. cbv zeta.
    rewrite run_requests_get.
    destruct (requests_get w tr _ _) as [msg|ok js]; [done|].
    rewrite pure_trace; [done|]. emits_any.
  - unfold movie_params. destruct (truthy year).
    + repeat split; [by simplify_map_eq..|].
      rewrite !dom_insert_L, dom_singleton_L. set_solver.
    + repeat split; [by simplify_map_eq..|].
      rewrite dom_insert_L, dom_singleton_L. set_solver.
Qed.

Lemma tmdb_search_movie_request_witness :
  (tmdb_search_movie (Demo.config "k") (Scenes.world Demo.offline (Ok true))
     (VStr "Inception") VNone []).2
  = [] ++ [EGet "https://api.themoviedb.org/3/search/movie"
             (movie_params (Demo.config "k") (VStr "Inception") VNone)]
  ∧ movie_params (Demo.config "k") (VStr "Inception") VNone !! "year" = None.
Proof.
  destruct (tmdb_search_movie_request (Demo.config "k")
              (Scenes.world Demo.offline (Ok true)) (VStr "Inception") VNone [])
    as (Htr & _ & _ & Hyear & _).
  - done.
  - split; [exact Htr|exact Hyear].
Defined.

(** X13. When the TV search succeeds with a first candidate whose first
    air date is a string (or is missing), the resolved name is the
    candidate's name, or the searched title when the candidate has none,
    and the year is the integer value of the first 4 characters of the date
    when they are all digits, and [None] otherwise: there is no other
    fallback. *)
Theorem tmdb_search_tv_resolution (cfg : Config) (w : World) (title : pyval)
    (tr : list Event) (d best : gmap string pyval) (rest : list pyval)
    (date : string) :
  TMDB_API_KEY cfg ≠ "" →
  requests_get w tr tv_url (tv_params cfg title) = Response true (Ok (VDict d)) →
  d !! "results" = Some (VList (VDict best :: rest)) →
  py_or (dict_get best "first_air_date") (VStr "") = VStr date →
  tmdb_search_tv cfg w title tr
  = (Ok (Some {| t_name := py_or (dict_get best "name") title;
                 t_year := if PyStr.isdigit (PyStr.take 4 date)
                           then VInt (PyStr.int (PyStr.take 4 date))
                           else VNone |}),
     tr ++ [EGet tv_url (tv_params cfg title)]).
Proof.
  intros Hkey Hget Hres Hdate.
  unfold tmdb_search_tv. rewrite key_set by done. cbv zeta.
  rewrite run_requests_get, Hget. cbn [negb fst snd].
  rewrite run_lift. cbn [py_get]. rewrite run_lift.
  assert (dict_get d "results" = VList (VDict best :: rest)) as ->.
  { unfold dict_get. by rewrite Hres. }
  cbn [py_or truthy negb py_first]. rewrite run_lift.
  cbn [py_get]. rewrite !run_lift, Hdate.
  cbn [py_slice4]. rewrite run_lift. cbn [py_isdigit]. rewrite run_lift.
  destruct (PyStr.isdigit (PyStr.take 4 date)) eqn:Hd.
  - cbn [py_int]. by rewrite Hd, !run_lift.
  - by rewrite run_ret.
Qed.

Lemma tmdb_search_tv_resolution_witness :
  tmdb_search_tv (Demo.config "k")
    (Scenes.world (Response true (Ok (Demo.tmdb_body "unknown"))) (Ok true))
    (VStr "breaking bad") []
  = (Ok (Some {| t_name := VStr "Breaking Bad"; t_year := VNone |}),
     [] ++ [EGet tv_url (tv_params (Demo.config "k") (VStr "breaking bad"))]).
Proof.
  refine (tmdb_search_tv_resolution (Demo.config "k")
    (Scenes.world (Response true (Ok (Demo.tmdb_body "unknown"))) (Ok true))
    (VStr "breaking bad") [] (Demo.tmdb_data "unknown") (Demo.candidate "unknown")
    [] "unknown" _ _ _ _).
  - done.
  - done.
  - by vm_compute.
  - by vm_compute.
Defined.

(** ** build_tag_suffix, further *)

(** X14. [build_tag_suffix] reads the four tag fields and nothing else:
    setting any other key of the info leaves the suffix unchanged. *)
Theorem build_tag_suffix_other_keys (repr : pyval → string)
    (info : gmap string pyval) (k : string) (v : pyval) :
  k ∉ tag_fields →
  build_tag_suffix repr (<[k := v]> info) = build_tag_suffix repr info.
Proof.
  intros Hk. unfold build_tag_suffix, dict_get.
  rewrite !lookup_insert_ne; [done|..];
    intros ->; apply Hk; unfold tag_fields;
    repeat (first [apply list_elem_of_here | apply list_elem_of_further]).
Qed.

Lemma build_tag_suffix_other_keys_witness :
  build_tag_suffix (λ _, "") (<["title" := VStr "x264"]> Demo.info_episode)
  = build_tag_suffix (λ _, "") Demo.info_episode.
Proof.
  refine (build_tag_suffix_other_keys (λ _, "") Demo.info_episode "title"
            (VStr "x264") _).
  unfold tag_fields. intros Hin.
  repeat (apply elem_of_cons in Hin as [Hin|Hin]; [discriminate Hin|]).
  by apply elem_of_nil in Hin.
Defined.

(** ** Failures on the way to the destination *)



Lemma emits_bind_mkdir_fails {B} (w : World) (P : Event → Prop) (p : Path)
    (k : unit → M B) :
  (∀ tr q, ∃ e, fs_mkdir w tr q = Raise e) →
  P (EMkdir (PyPath.str p)) →
  emits P (bind (mkdir w p) k).
Proof.
  intros Hmk HP tr. destruct (Hmk tr (PyPath.str p)) as [e He].
  unfold bind, mkdir. rewrite run_call, He.
  exists [EMkdir (PyPath.str p)]. split; [done|]. by constructor.
Qed.

(** X16. When no directory can be created ([mkdir] always raises), a
    sweep moves no file: a move is only ever issued after the directory it
    targets has been created. *)
Theorem sweep_without_mkdir_moves_nothing (cfg : Config) (w : World)
    (tr : list Event) :
  (∀ tr p, ∃ e, fs_mkdir w tr p = Raise e) →
  ∃ evs, (sweep_once cfg w tr).2 = tr ++ evs ∧ moves evs = [].
Proof.
  intros Hmk.
  assert (emits no_move_event (sweep_once cfg w)) as Hsweep.
  { apply sweep_once_emits_in; try done.
    - intros path info. unfold handle_episode, logging_info. cbv zeta.
      destruct (_ || _); [emits_any|].
      apply emits_bind; [by apply tmdb_search_tv_emits_in|intros ?]. cbv zeta.
      apply emits_bind; [emits_any|intros ?].
      apply emits_bind; [emits_any|intros ?].
      by apply emits_bind_mkdir_fails.
    - intros path info. unfold handle_movie, logging_info. cbv zeta.
      destruct (negb _); [emits_any|].
      apply emits_bind; [by apply tmdb_search_movie_emits_in|intros ?]. cbv zeta.
      by apply emits_bind_mkdir_fails. }
  destruct (Hsweep tr) as (evs & E & HP). exists evs. split; [done|].
  by apply moves_no_move_events.
Qed.

Lemma sweep_without_mkdir_moves_nothing_witness :
  ∃ evs, (sweep_once (Demo.config "") Scenes.world_read_only []).2 = [] ++ evs
         ∧ moves evs = [].
Proof.
  refine (sweep_without_mkdir_moves_nothing (Demo.config "")
            Scenes.world_read_only [] _).
  intros. by exists (ExternalError "read-only file system").
Defined.

Lemma mkdirs_only_mkdir d evs :
  Forall (only_mkdir d) evs → ∀ p, p ∈ mkdirs evs → p = d.
Proof.
  induction 1 as [|e evs He _ IH]; intros p Hp; [by apply elem_of_nil in Hp|].
  destruct e; simpl in *; auto.
  apply elem_of_cons in Hp as [->|Hp]; auto.
Qed.

(** X17. The only directory [handle_movie] ever asks to create is
    [MOVIES_DIR] itself, whatever the title is: when the destination lies
    deeper, as for a title that holds a separator, its parent directory is
    not created. *)
Theorem handle_movie_creates_only_movies_dir (cfg : Config) (w : World)
    (path : Path) (info : gmap string pyval) (tr : list Event) :
  ∃ evs, (handle_movie cfg w path info tr).2 = tr ++ evs
         ∧ ∀ p, p ∈ mkdirs evs → p = PyPath.str (MOVIES_DIR cfg).
Proof.
  assert (emits (only_mkdir (PyPath.str (MOVIES_DIR cfg)))
            (handle_movie cfg w path info)) as Hm.
  { unfold handle_movie, logging_info, mkdir, shutil_move. cbv zeta.
    destruct (negb _); [emits_any|].
    apply emits_bind; [by apply tmdb_search_movie_emits_in|intros ?]. cbv zeta.
    apply emits_bind; [by apply emits_call|intros ?]. emits_any. }
  destruct (Hm tr) as (evs & E & HP). exists evs. split; [done|].
  by apply mkdirs_only_mkdir.
Qed.

Example handle_movie_title_with_separator :
  let tr := (handle_movie (Demo.config "k")
               (Scenes.world (Response true (Ok Scenes.face_off_body)) (Ok true))
               Demo.movie_path Scenes.info_face_off []).2 in
  mkdirs tr = ["/media/movies"]
  ∧ moves tr = [("/downloads/complete/films/Inception.2010.mp4",
                 "/media/movies/Face/Off (1997).mp4")].
Proof. by vm_compute. Qed.
